(** * PIN-based messenger: the store schema, its row-level policies, the PIN
    allocator and the client stores, embedded from

    - the SQL migration (tables [profiles], [connections], [chats], their
      row-level-security policies and the function [generate_unique_pin]);
    - [src/types/database.ts] (the row types);
    - [src/store/useChatStore.ts], [src/store/useAuthStore.ts] and
      [src/pages/Chat.tsx] (the client operations).

    A table is the list of its rows in scan order.  The requests of the
    chat page are made under a session, that is under the role
    [authenticated], the only role the policies of the migration are
    granted to; [auth.uid()] is the identity of the session.  The requests
    of [signUp] are made under the session that the identity provider
    returned, or under none.  What the outside world decides is an argument
    of the operation it enters: the value of [gen_random_uuid()] and of
    [now()] for an INSERT, the successive values of [RANDOM()], the order in
    which a sort leaves rows of equal key, the answer of the identity
    provider.  A request is answered by the store with data or with an
    error of its own; failures of the transport are not part of the
    embedding. *)

From Stdlib Require Import List String Ascii Bool ZArith Lia.
From Stdlib Require Import Permutation Sorted.
Import ListNotations.

Local Open Scope string_scope.
Local Open Scope Z_scope.

(** ** Row types ([src/types/database.ts] and the [CREATE TABLE] statements) *)

(** A [uuid] in its text form, as the client sees it ([id: string]). *)
Definition uuid := string.

(** A [timestamptz]: microseconds since the epoch. *)
Definition timestamptz := Z.

Module Profile.
Record t := mk
  { id : uuid;
    private_pin : string;
    display_name : string;
    avatar_url : option string;
    created_at : timestamptz;
    updated_at : timestamptz }.
End Profile.

Module Connection.
Record t := mk
  { id : uuid;
    user_id : uuid;
    connected_user_id : uuid;
    created_at : timestamptz }.
End Connection.

Module Chat.
Record t := mk
  { id : uuid;
    sender_id : uuid;
    receiver_id : uuid;
    message : string;
    created_at : timestamptz;
    read : bool }.
End Chat.

(** ** Text helpers of the SQL function *)

Module Sql.

Definition digit_char (d : Z) : ascii :=
  ascii_of_nat (48 + Z.to_nat d).

Arguments digit_char : simpl never.

(** Decimal digits of a non-negative integer, most significant first;
    [fuel] bounds the number of digits. *)
Fixpoint digits (fuel : nat) (n : Z) : string :=
  match fuel with
  | O => ""
  | S f =>
      if n <? 10 then String (digit_char n) ""
      else digits f (n / 10) ++ String (digit_char (n mod 10)) ""
  end.

(** [x::text] for an integral, non-negative [double precision] value
    below 10^15 (no exponent notation there): its decimal digits. *)
Definition to_text (n : Z) : string :=
  digits (S (Z.to_nat (Z.log2 n))) n.

Fixpoint replicate (n : nat) (c : ascii) : string :=
  match n with
  | O => ""
  | S k => String c (replicate k c)
  end.

(** [LPAD(s, len, fill)] with a one-character [fill]: [s] cut to its first
    [len] characters when it is longer, padded on the left otherwise. *)
Definition LPAD (s : string) (len : nat) (fill : ascii) : string :=
  if (len <=? String.length s)%nat then substring 0 len s
  else replicate (len - String.length s) fill ++ s.

Definition is_hex (c : ascii) : bool :=
  let n := nat_of_ascii c in
  ((48 <=? n) && (n <=? 57) || (97 <=? n) && (n <=? 102)
   || (65 <=? n) && (n <=? 70))%nat.

(** The text of a [uuid]: 36 characters, hexadecimal digits in groups of
    8-4-4-4-12 joined by hyphens. *)
Fixpoint uuid_shape (pos : nat) (s : string) : bool :=
  match s with
  | EmptyString => (pos =? 36)%nat
  | String c rest =>
      (if ((pos =? 8) || (pos =? 13) || (pos =? 18) || (pos =? 23))%nat
       then Ascii.eqb c "-" else is_hex c)
      && uuid_shape (S pos) rest
  end.

Definition is_uuid (s : string) : bool := uuid_shape 0 s.

(** A [double precision] value, [mant * 2 ^ expo]: the mantissa has at
    most 53 bits and the exponent is at least -1074. *)
Record double := mkDouble
  { mant : Z;
    expo : Z }.

(** [m / 2 ^ k] rounded to the nearest integer, a tie to the even one. *)
Definition round_shift (m k : Z) : Z :=
  if k <=? 0 then m
  else
    let q := m / 2 ^ k in
    let r := m mod 2 ^ k in
    let half := 2 ^ (k - 1) in
    if r <? half then q
    else if half <? r then q + 1
    else if Z.even q then q else q + 1.

(** The double nearest to [m * 2 ^ e], a tie to the even mantissa: [m] is
    cut to 53 bits, and no further than the least exponent allows. *)
Definition nearest_double (m e : Z) : double :=
  let k := Z.max 0 (Z.max (Z.log2 (Z.abs m) - 52) (- 1074 - e)) in
  {| mant := round_shift m k; expo := e + k |}.

(** [a * b] in double precision: the exact product, rounded once. *)
Definition mul (a b : double) : double :=
  nearest_double (mant a * mant b) (expo a + expo b).

(** An integer constant below 2^53 as a double. *)
Definition of_integer (n : Z) : double := {| mant := n; expo := 0 |}.

(** [FLOOR(x)] of a double, an integer. *)
Definition FLOOR (x : double) : Z :=
  if 0 <=? expo x then mant x * 2 ^ expo x else mant x / 2 ^ (- expo x).

End Sql.

(** ** The store: tables, policies, constraints *)

Module Store.

Record Db := mkDb
  { auth_users : list uuid;   (* auth.users(id): the provider's accounts *)
    profiles : list Profile.t;
    connections : list Connection.t;
    chats : list Chat.t }.

Inductive PgError :=
| RlsViolation (table : string)            (* 42501 *)
| NotNullViolation (column : string)       (* 23502 *)
| UniqueViolation (constraint : string)    (* 23505 *)
| ForeignKeyViolation (constraint : string)(* 23503 *)
| NotSingleRow.                            (* .single() on 0 or several rows *)

Definition is_unique_violation (e : PgError) : bool :=
  match e with UniqueViolation _ => true | _ => false end.

(** SQL [=] between [auth.uid()] and a column that may be NULL: NULL is
    not true. *)
Definition uid_eq (uid : uuid) (col : option uuid) : bool :=
  match col with
  | Some v => String.eqb uid v
  | None => false
  end.

(** The policies of one table, by command.  [Row] is a stored row, [New]
    a row proposed by an INSERT (columns that the statement left out and
    that have no DEFAULT are NULL, i.e. [None]).  Policies are permissive:
    a row passes when one policy of the command accepts it, and no row
    passes a command that has no policy. *)
Record Policies (Row New : Type) := mkPolicies
  { for_select : list (uuid -> Row -> bool);
    for_insert : list (uuid -> New -> bool);
    for_update : list (uuid -> Row -> bool);
    for_delete : list (uuid -> Row -> bool) }.
Arguments mkPolicies {Row New}.
Arguments for_select {Row New}.
Arguments for_insert {Row New}.
Arguments for_update {Row New}.
Arguments for_delete {Row New}.

Definition permitted {R : Type} (ps : list (uuid -> R -> bool))
           (uid : uuid) (r : R) : bool :=
  existsb (fun p => p uid r) ps.

(** Rows proposed by the INSERT statements of the client. *)
Record NewProfile := mkNewProfile
  { np_id : option uuid;
    np_private_pin : option string;
    np_display_name : option string }.

Record NewConnection := mkNewConnection
  { nc_user_id : option uuid;
    nc_connected_user_id : option uuid }.

Record NewChat := mkNewChat
  { nm_sender_id : option uuid;
    nm_receiver_id : option uuid;
    nm_message : option string }.

(** [profiles]: "Users can read all profiles" (SELECT, USING (true)) and
    "Users can update own profile" (UPDATE, USING (auth.uid() = id)).
    The migration declares no INSERT and no DELETE policy. *)
Definition profiles_policies : Policies Profile.t NewProfile :=
  {| for_select := [fun _ _ => true];
     for_insert := [];
     for_update := [fun uid r => String.eqb uid (Profile.id r)];
     for_delete := [] |}.

(** [connections]: "Users can read own connections" and
    "Users can create own connections". *)
Definition connections_policies : Policies Connection.t NewConnection :=
  {| for_select :=
       [fun uid r => String.eqb uid (Connection.user_id r)
                     || String.eqb uid (Connection.connected_user_id r)];
     for_insert := [fun uid n => uid_eq uid (nc_user_id n)];
     for_update := [];
     for_delete := [] |}.

(** [chats]: "Users can read their own chats" and
    "Users can send messages". *)
Definition chats_policies : Policies Chat.t NewChat :=
  {| for_select :=
       [fun uid r => String.eqb uid (Chat.sender_id r)
                     || String.eqb uid (Chat.receiver_id r)];
     for_insert := [fun uid n => uid_eq uid (nm_sender_id n)];
     for_update := [];
     for_delete := [] |}.

(** The rows of a table that a SELECT of [uid] ranges over. *)
Definition visible {Row New : Type} (ps : Policies Row New)
           (uid : uuid) (rows : list Row) : list Row :=
  filter (permitted (for_select ps) uid) rows.

(** The policies are granted [TO authenticated]: a caller without a
    session passes none of them. *)
Definition permitted_to {R : Type} (ps : list (uuid -> R -> bool))
           (caller : option uuid) (r : R) : bool :=
  match caller with
  | Some uid => permitted ps uid r
  | None => false
  end.

Definition visible_to {Row New : Type} (ps : Policies Row New)
           (caller : option uuid) (rows : list Row) : list Row :=
  filter (permitted_to (for_select ps) caller) rows.

(** *** Reading: PostgREST queries *)

(** One query parameter of a request on rows of type [Row]: [.eq(col, v)]
    or [.or('c1.eq.v1,c2.eq.v2,...')].  The parameters of one request are
    combined by AND. *)
Inductive Param (Row : Type) :=
| p_eq (col : Row -> string) (value : string)
| p_or (alternatives : list ((Row -> string) * string)).
Arguments p_eq {Row}.
Arguments p_or {Row}.

Definition eval_param {Row : Type} (p : Param Row) (r : Row) : bool :=
  match p with
  | p_eq col v => String.eqb (col r) v
  | p_or alts => existsb (fun a => String.eqb (fst a r) (snd a)) alts
  end.

Definition matches {Row : Type} (ps : list (Param Row)) (r : Row) : bool :=
  forallb (fun p => eval_param p r) ps.

(** Sorting by insertion, by ascending [key]. *)
Fixpoint insert_by {Row : Type} (key : Row -> Z) (x : Row) (l : list Row)
  : list Row :=
  match l with
  | [] => [x]
  | h :: t => if key x <=? key h then x :: h :: t else h :: insert_by key x t
  end.

Fixpoint sort_by {Row : Type} (key : Row -> Z) (l : list Row) : list Row :=
  match l with
  | [] => []
  | x :: t => insert_by key x (sort_by key t)
  end.

(** The sort of the store is not stable: in which order it leaves rows of
    the same key is its own choice, made from the rows it is given.
    [arrange] stands for that choice: the order in which the rows reach an
    insertion sort. *)
Record TieOrder (Row : Type) := mkTieOrder
  { arrange : list Row -> list Row;
    arrange_perm : forall l, Permutation l (arrange l) }.
Arguments arrange {Row}.
Arguments arrange_perm {Row}.

(** Ties left in the order of the scan, and in the opposite order. *)
Definition scan_order (Row : Type) : TieOrder Row :=
  {| arrange := fun l => l; arrange_perm := fun l => Permutation_refl l |}.

Definition reverse_scan_order (Row : Type) : TieOrder Row :=
  {| arrange := fun l => rev l; arrange_perm := fun l => Permutation_rev l |}.

(** [ORDER BY key ASC] with no further sort key: rows come out by ascending
    [key], rows of the same [key] in the order [tie] of the store. *)
Definition order_by {Row : Type} (tie : TieOrder Row) (key : Row -> Z)
           (l : list Row) : list Row :=
  sort_by key (arrange tie l).

(** The order of two rows under [ORDER BY key ASC]. *)
Definition ascending {Row : Type} (key : Row -> Z) (x y : Row) : Prop :=
  key x <= key y.

(** [.single()]: the one row of the result, an error otherwise. *)
Definition single {A : Type} (rows : list A) : (A + PgError)%type :=
  match rows with
  | [r] => inl r
  | _ => inr NotSingleRow
  end.

Definition select_profiles (uid : uuid) (db : Db)
           (ps : list (Param Profile.t)) : list Profile.t :=
  filter (matches ps) (visible profiles_policies uid (profiles db)).

Definition select_connections (uid : uuid) (db : Db)
           (ps : list (Param Connection.t)) : list Connection.t :=
  filter (matches ps) (visible connections_policies uid (connections db)).

Definition select_chats (uid : uuid) (db : Db)
           (ps : list (Param Chat.t)) : list Chat.t :=
  filter (matches ps) (visible chats_policies uid (chats db)).

(** *** Writing: INSERT with policy and constraint checks

    An INSERT checks, in this order: the WITH CHECK policies on the proposed
    row, NOT NULL, the unique indexes (primary key first), the foreign keys.
    [new_id] is the value of [gen_random_uuid()] and [now] the value of
    [now()] for the statement. *)

Definition has_account (db : Db) (u : uuid) : bool :=
  existsb (String.eqb u) (auth_users db).

Definition has_profile (db : Db) (u : uuid) : bool :=
  existsb (fun p => String.eqb (Profile.id p) u) (profiles db).

Definition pin_taken (rows : list Profile.t) (pin : string) : bool :=
  existsb (fun p => String.eqb (Profile.private_pin p) pin) rows.

Definition has_edge (db : Db) (a b : uuid) : bool :=
  existsb (fun c => String.eqb (Connection.user_id c) a
                    && String.eqb (Connection.connected_user_id c) b)
          (connections db).

(** The rows of [connections] that are the edge [a -> b]. *)
Definition edges (db : Db) (a b : uuid) : list Connection.t :=
  filter (fun c => String.eqb (Connection.user_id c) a
                   && String.eqb (Connection.connected_user_id c) b)
         (connections db).

(** The two uniqueness constraints the client relies on:
    [private_pin text UNIQUE] and [UNIQUE(user_id, connected_user_id)]. *)
Definition pins_unique (db : Db) : Prop :=
  NoDup (map Profile.private_pin (profiles db)).

Definition edge_key (c : Connection.t) : uuid * uuid :=
  (Connection.user_id c, Connection.connected_user_id c).

Definition edges_unique (db : Db) : Prop :=
  NoDup (map edge_key (connections db)).

(** The primary keys and the foreign keys of the three tables. *)
Definition profile_ids_unique (db : Db) : Prop :=
  NoDup (map Profile.id (profiles db)).

Definition connection_ids_unique (db : Db) : Prop :=
  NoDup (map Connection.id (connections db)).

Definition chat_ids_unique (db : Db) : Prop :=
  NoDup (map Chat.id (chats db)).

Definition profiles_reference_accounts (db : Db) : Prop :=
  forall p, In p (profiles db) -> has_account db (Profile.id p) = true.

Definition connections_reference_profiles (db : Db) : Prop :=
  forall c, In c (connections db) ->
    has_profile db (Connection.user_id c) = true
    /\ has_profile db (Connection.connected_user_id c) = true.

Definition chats_reference_profiles (db : Db) : Prop :=
  forall m, In m (chats db) ->
    has_profile db (Chat.sender_id m) = true
    /\ has_profile db (Chat.receiver_id m) = true.

(** All the constraints that the [CREATE TABLE] statements declare. *)
Definition constraints_hold (db : Db) : Prop :=
  pins_unique db /\ profile_ids_unique db /\ profiles_reference_accounts db
  /\ edges_unique db /\ connection_ids_unique db
  /\ connections_reference_profiles db
  /\ chat_ids_unique db /\ chats_reference_profiles db.

Definition set_profiles (db : Db) (l : list Profile.t) : Db :=
  {| auth_users := auth_users db; profiles := l;
     connections := connections db; chats := chats db |}.

Definition set_connections (db : Db) (l : list Connection.t) : Db :=
  {| auth_users := auth_users db; profiles := profiles db;
     connections := l; chats := chats db |}.

Definition set_chats (db : Db) (l : list Chat.t) : Db :=
  {| auth_users := auth_users db; profiles := profiles db;
     connections := connections db; chats := l |}.

Definition add_account (db : Db) (u : uuid) : Db :=
  {| auth_users := u :: auth_users db; profiles := profiles db;
     connections := connections db; chats := chats db |}.

(** Checks are threaded through an error monad: the first check that fails
    is the error of the statement. *)
Definition Result (A : Type) : Type := (A + PgError)%type.

Definition bind {A B : Type} (x : Result A) (k : A -> Result B) : Result B :=
  match x with
  | inl a => k a
  | inr e => inr e
  end.

Notation "x <- c ;; k" := (bind c (fun x => k))
  (at level 61, c at next level, right associativity).

Definition require (ok : bool) (e : PgError) : Result unit :=
  if ok then inl tt else inr e.

Definition not_null {A : Type} (column : string) (v : option A) : Result A :=
  match v with
  | Some a => inl a
  | None => inr (NotNullViolation column)
  end.

(** [INSERT INTO profiles (id, display_name, private_pin) ... RETURNING *],
    under the policies [ps] for [profiles]. *)
Definition insert_profiles_under (ps : Policies Profile.t NewProfile)
           (caller : option uuid) (db : Db) (n : NewProfile)
           (now : timestamptz) : Result (Db * Profile.t) :=
  _ <- require (permitted_to (for_insert ps) caller n)
               (RlsViolation "profiles") ;;
  i <- not_null "id" (np_id n) ;;
  pin <- not_null "private_pin" (np_private_pin n) ;;
  name <- not_null "display_name" (np_display_name n) ;;
  _ <- require (negb (has_profile db i)) (UniqueViolation "profiles_pkey") ;;
  _ <- require (negb (pin_taken (profiles db) pin))
               (UniqueViolation "profiles_private_pin_key") ;;
  _ <- require (has_account db i) (ForeignKeyViolation "profiles_id_fkey") ;;
  let row := Profile.mk i pin name None now now in
  inl (set_profiles db (profiles db ++ [row]), row).

(** The same under the policies of the migration, for a caller with a
    session. *)
Definition insert_profiles (uid : uuid) (db : Db) (n : NewProfile)
           (now : timestamptz) : Result (Db * Profile.t) :=
  insert_profiles_under profiles_policies (Some uid) db n now.

(** [INSERT INTO connections (user_id, connected_user_id)] *)
Definition insert_connections (uid : uuid) (db : Db) (n : NewConnection)
           (new_id : uuid) (now : timestamptz) : Result Db :=
  _ <- require (permitted (for_insert connections_policies) uid n)
               (RlsViolation "connections") ;;
  a <- not_null "user_id" (nc_user_id n) ;;
  b <- not_null "connected_user_id" (nc_connected_user_id n) ;;
  _ <- require (negb (existsb (fun c => String.eqb (Connection.id c) new_id)
                              (connections db)))
               (UniqueViolation "connections_pkey") ;;
  _ <- require (negb (has_edge db a b))
               (UniqueViolation "connections_user_id_connected_user_id_key") ;;
  _ <- require (has_profile db a)
               (ForeignKeyViolation "connections_user_id_fkey") ;;
  _ <- require (has_profile db b)
               (ForeignKeyViolation "connections_connected_user_id_fkey") ;;
  inl (set_connections db (connections db ++ [Connection.mk new_id a b now])).

(** [INSERT INTO chats (...)]: [read] takes its DEFAULT [false]. *)
Definition insert_chats (uid : uuid) (db : Db) (n : NewChat)
           (new_id : uuid) (now : timestamptz) : Result Db :=
  _ <- require (permitted (for_insert chats_policies) uid n)
               (RlsViolation "chats") ;;
  s <- not_null "sender_id" (nm_sender_id n) ;;
  r <- not_null "receiver_id" (nm_receiver_id n) ;;
  m <- not_null "message" (nm_message n) ;;
  _ <- require (negb (existsb (fun c => String.eqb (Chat.id c) new_id)
                              (chats db)))
               (UniqueViolation "chats_pkey") ;;
  _ <- require (has_profile db s)
               (ForeignKeyViolation "chats_sender_id_fkey") ;;
  _ <- require (has_profile db r)
               (ForeignKeyViolation "chats_receiver_id_fkey") ;;
  inl (set_chats db (chats db ++ [Chat.mk new_id s r m now false])).

(** *** The function [generate_unique_pin]

    [RANDOM] gives the successive values of [RANDOM()], doubles in [0, 1);
    [rows] is the relation the inner SELECT ranges over.  The loop of the
    function has no bound of its own: [fuel] is the number of iterations
    observed, and [None] says that the loop is still running after them. *)

(** A double in [0, 1): a mantissa of at most 53 bits, an exponent that is
    not positive, and a value below 1. *)
Definition unit_double (r : Sql.double) : Prop :=
  0 <= Sql.mant r < 2 ^ 53 /\ - 1074 <= Sql.expo r <= 0
  /\ Sql.mant r < 2 ^ (- Sql.expo r).

Definition in_unit_interval (RANDOM : nat -> Sql.double) : Prop :=
  forall i, unit_double (RANDOM i).

(** [RANDOM() * 1000000], the product of two doubles. *)
Definition times_1000000 (r : Sql.double) : Sql.double :=
  Sql.mul r (Sql.of_integer 1000000).

(** [LPAD(FLOOR(RANDOM() * 1000000)::text, 6, '0')] *)
Definition new_pin_of (r : Sql.double) : string :=
  Sql.LPAD (Sql.to_text (Sql.FLOOR (times_1000000 r))) 6 "0".

Fixpoint generate_unique_pin_from (fuel : nat) (RANDOM : nat -> Sql.double)
         (i : nat)
         (rows : list Profile.t) : option string :=
  match fuel with
  | O => None
  | S f =>
      let new_pin := new_pin_of (RANDOM i) in
      let pin_exists := pin_taken rows new_pin in
      if negb pin_exists then Some new_pin
      else generate_unique_pin_from f RANDOM (S i) rows
  end.

Definition generate_unique_pin (fuel : nat) (RANDOM : nat -> Sql.double)
           (rows : list Profile.t) : option string :=
  generate_unique_pin_from fuel RANDOM 0 rows.

(** [supabase.rpc('generate_unique_pin')]: the function is not declared
    SECURITY DEFINER, so it runs with the rights of the caller and its
    SELECT ranges over the profiles that the policies [ps] let the caller
    read: none for a caller without a session. *)
Definition rpc_generate_unique_pin_under (ps : Policies Profile.t NewProfile)
           (caller : option uuid) (db : Db) (fuel : nat)
           (RANDOM : nat -> Sql.double) : option string :=
  generate_unique_pin fuel RANDOM (visible_to ps caller (profiles db)).

(** The same under the policies of the migration. *)
Definition rpc_generate_unique_pin (caller : option uuid) (db : Db)
           (fuel : nat) (RANDOM : nat -> Sql.double) : option string :=
  rpc_generate_unique_pin_under profiles_policies caller db fuel RANDOM.

End Store.

(** ** The change feed ([postgres_changes] subscriptions) *)

Module Realtime.

(** [s] cut at the first [sep]: the text before it and the text after it. *)
Fixpoint split_once (sep : ascii) (s : string) : option (string * string) :=
  match s with
  | EmptyString => None
  | String c rest =>
      if Ascii.eqb c sep then Some ("", rest)
      else
        match split_once sep rest with
        | Some (before, after) => Some (String c before, after)
        | None => None
        end
  end.

(** A subscription filter is one condition, [column=operator.value]: the
    column is the text before the first [=], the operator the text between
    it and the next [.], the value all the rest. *)
Definition parse_filter (f : string) : option (string * string * string) :=
  match split_once "=" f with
  | Some (col, rest) =>
      match split_once "." rest with
      | Some (op, value) => Some (col, op, value)
      | None => None
      end
  | None => None
  end.

(** The text of a column of a [chats] row ([created_at] is not compared as
    text). *)
Definition chats_column (col : string) (r : Chat.t) : option string :=
  if String.eqb col "id" then Some (Chat.id r)
  else if String.eqb col "sender_id" then Some (Chat.sender_id r)
  else if String.eqb col "receiver_id" then Some (Chat.receiver_id r)
  else if String.eqb col "message" then Some (Chat.message r)
  else if String.eqb col "read"
  then Some (if Chat.read r then "true" else "false")
  else None.

Definition filter_accepts (f : string) (r : Chat.t) : bool :=
  match parse_filter f with
  | Some (col, op, value) =>
      if String.eqb op "eq" then
        match chats_column col r with
        | Some v => String.eqb v value
        | None => false
        end
      else false
  | None => false
  end.

(** The other reading of a filter with commas, as a list of conditions that
    must all hold (kept for comparison only). *)
Fixpoint split_all (fuel : nat) (sep : ascii) (s : string) : list string :=
  match fuel with
  | O => [s]
  | S k =>
      match split_once sep s with
      | Some (before, after) => before :: split_all k sep after
      | None => [s]
      end
  end.

Definition filter_accepts_all (f : string) (r : Chat.t) : bool :=
  forallb (fun c => filter_accepts c r) (split_all (String.length f) "," f).

Record Subscription := mkSubscription
  { event : string;
    schema : string;
    table : string;
    filter : string }.

(** An inserted [chats] row is sent to a subscriber when the subscriber may
    read it and its filter accepts it. *)
Definition delivers (uid : uuid) (sub : Subscription) (r : Chat.t) : bool :=
  String.eqb (event sub) "INSERT" && String.eqb (schema sub) "public"
  && String.eqb (table sub) "chats"
  && Store.permitted (Store.for_select Store.chats_policies) uid r
  && filter_accepts (filter sub) r.

End Realtime.

(** ** Results of the client's asynchronous functions *)

Inductive Error :=
| AuthError (msg : string)
| StoreError (e : Store.PgError).

(** A promise is fulfilled, rejected (the function throws), or never
    settles. *)
Inductive Outcome (A : Type) :=
| Resolved (a : A)
| Thrown (e : Error)
| Pending.
Arguments Resolved {A}.
Arguments Thrown {A}.
Arguments Pending {A}.

(** ** [src/store/useChatStore.ts] *)

Module useChatStore.

Record State := mkState
  { chats : list Chat.t;
    currentChat : option Profile.t }.

Definition initial : State := {| chats := []; currentChat := None |}.

Definition setCurrentChat (st : State) (profile : option Profile.t) : State :=
  {| chats := chats st; currentChat := profile |}.

Definition set_chats (st : State) (l : list Chat.t) : State :=
  {| chats := l; currentChat := currentChat st |}.

(** The object that [sendMessage] inserts:
    [{ message, receiver_id: receiverId }]. *)
Definition sendMessage_values (message receiverId : string) : Store.NewChat :=
  {| Store.nm_sender_id := None;
     Store.nm_receiver_id := Some receiverId;
     Store.nm_message := Some message |}.

(** [insert([...])], then [if (error) throw error]. *)
Definition sendMessage (uid : uuid) (db : Store.Db)
           (message receiverId : string) (new_id : uuid) (now : timestamptz)
  : Store.Db * Outcome unit :=
  match Store.insert_chats uid db (sendMessage_values message receiverId)
          new_id now with
  | inl db' => (db', Resolved tt)
  | inr error => (db, Thrown (StoreError error))
  end.

(** The rows of the request of [fetchChats]:
    [.or(sender_id.eq.U,receiver_id.eq.U).or(sender_id.eq.R,receiver_id.eq.R)
     .order('created_at', { ascending: true })]. *)
Definition fetchChats_data (tie : Store.TieOrder Chat.t) (uid : uuid)
           (db : Store.Db) (userId receiverId : string) : list Chat.t :=
  Store.order_by tie Chat.created_at
    (Store.select_chats uid db
       [ Store.p_or [(Chat.sender_id, userId); (Chat.receiver_id, userId)];
         Store.p_or [(Chat.sender_id, receiverId);
                     (Chat.receiver_id, receiverId)] ]).

Definition fetchChats (tie : Store.TieOrder Chat.t) (uid : uuid)
           (db : Store.Db) (st : State) (userId receiverId : string) : State :=
  set_chats st (fetchChats_data tie uid db userId receiverId).

(** The subscription registered by [subscribeToChats]. *)
Definition subscribeToChats (userId : string) : Realtime.Subscription :=
  {| Realtime.event := "INSERT";
     Realtime.schema := "public";
     Realtime.table := "chats";
     Realtime.filter :=
       "sender_id=eq." ++ userId ++ ",receiver_id=eq." ++ userId |}.

(** The callback of the subscription:
    [set({ chats: [...chats, payload.new] })]. *)
Definition on_payload (st : State) (new : Chat.t) : State :=
  set_chats st (chats st ++ [new]).

(** What the insertion of [row] into [chats] does to the store of a client
    of [uid] that holds the subscription [sub]. *)
Definition on_insert (uid : uuid) (sub : Realtime.Subscription)
           (st : State) (row : Chat.t) : State :=
  if Realtime.delivers uid sub row then on_payload st row else st.

End useChatStore.

(** ** [src/store/useAuthStore.ts] *)

Module useAuthStore.

Record State := mkState
  { user : option Profile.t;
    loading : bool }.

Definition initial : State := {| user := None; loading := true |}.

(** The answer of the identity provider to [auth.signUp]: [authError], or
    [authData] with its [user] (an account of that id then exists) and
    with or without a [session] for it (none while the address is still to
    be confirmed). *)
Inductive SignUpResponse :=
| authError (msg : string)
| authData (user : option uuid) (session : bool).

(** The caller of the requests that follow [auth.signUp]. *)
Definition caller_after (user_id : uuid) (session : bool) : option uuid :=
  if session then Some user_id else None.

(** [generatePin]: the remote call of [generate_unique_pin], under the
    policies [ps] for [profiles]. *)
Definition generatePin_under (ps : Store.Policies Profile.t Store.NewProfile)
           (caller : option uuid) (db : Store.Db) (fuel : nat)
           (RANDOM : nat -> Sql.double) : Outcome string :=
  match Store.rpc_generate_unique_pin_under ps caller db fuel RANDOM with
  | Some data => Resolved data
  | None => Pending
  end.

(** The row that [signUp] inserts:
    [{ id: authData.user.id, display_name: displayName, private_pin }]. *)
Definition signUp_values (user_id : uuid) (displayName pin : string)
  : Store.NewProfile :=
  {| Store.np_id := Some user_id;
     Store.np_private_pin := Some pin;
     Store.np_display_name := Some displayName |}.

(** [signUp] against a store whose policies for [profiles] are [ps]: the
    account first, then, in requests of their own, the PIN and the profile
    row. *)
Definition signUp_under (ps : Store.Policies Profile.t Store.NewProfile)
           (db : Store.Db) (st : State) (response : SignUpResponse)
           (displayName : string) (fuel : nat) (RANDOM : nat -> Sql.double)
           (now : timestamptz) : Store.Db * State * Outcome unit :=
  match response with
  | authError msg => (db, st, Thrown (AuthError msg))
  | authData None _ => (db, st, Resolved tt)
  | authData (Some user_id) session =>
      let caller := caller_after user_id session in
      let db1 := Store.add_account db user_id in
      match generatePin_under ps caller db1 fuel RANDOM with
      | Pending => (db1, st, Pending)
      | Thrown e => (db1, st, Thrown e)
      | Resolved pin =>
          match Store.insert_profiles_under ps caller db1
                  (signUp_values user_id displayName pin) now with
          | inr profileError => (db1, st, Thrown (StoreError profileError))
          | inl (db2, profileData) =>
              (db2, {| user := Some profileData; loading := loading st |},
               Resolved tt)
          end
      end
  end.

(** [signUp] against the store of the migration. *)
Definition signUp (db : Store.Db) (st : State) (response : SignUpResponse)
           (displayName : string) (fuel : nat) (RANDOM : nat -> Sql.double)
           (now : timestamptz) : Store.Db * State * Outcome unit :=
  signUp_under Store.profiles_policies db st response displayName fuel RANDOM
    now.

(** [signIn]: [error] is the answer of [auth.signInWithPassword]; the
    store is not touched. *)
Definition signIn (st : State) (error : option string)
  : State * Outcome unit :=
  match error with
  | Some msg => (st, Thrown (AuthError msg))
  | None => (st, Resolved tt)
  end.

(** [signOut]: [error] is the answer of [auth.signOut]. *)
Definition signOut (st : State) (error : option string)
  : State * Outcome unit :=
  match error with
  | Some msg => (st, Thrown (AuthError msg))
  | None => ({| user := None; loading := loading st |}, Resolved tt)
  end.

(** [fetchProfile]: [auth_user] is the [user] of [auth.getUser()].  The
    [error] of the query is not looked at: [data] is [null] when
    [.single()] fails. *)
Definition fetchProfile (db : Store.Db) (st : State)
           (auth_user : option uuid) : State :=
  match auth_user with
  | Some user_id =>
      let profile :=
        match Store.single
                (Store.select_profiles user_id db
                   [Store.p_eq Profile.id user_id]) with
        | inl data => Some data
        | inr _ => None
        end in
      {| user := profile; loading := false |}
  | None => {| user := None; loading := false |}
  end.

End useAuthStore.

(** ** [src/pages/Chat.tsx] *)

Module ChatPage.

Record State := mkState
  { connections : list (option Profile.t);
    showAddContact : bool;
    pinToAdd : string;
    error : string }.

Definition setError (st : State) (e : string) : State :=
  {| connections := connections st; showAddContact := showAddContact st;
     pinToAdd := pinToAdd st; error := e |}.

(** [select('connected_user_id, profiles:connected_user_id( * )')
     .eq('user_id', user.id)], then [data.map(conn => conn.profiles)]:
    each edge of the user with the profile it points to. *)
Definition fetchConnections_data (user : Profile.t) (db : Store.Db)
  : list (option Profile.t) :=
  map (fun conn =>
         find (fun p => String.eqb (Profile.id p)
                                   (Connection.connected_user_id conn))
              (Store.select_profiles (Profile.id user) db []))
      (Store.select_connections (Profile.id user) db
         [Store.p_eq Connection.user_id (Profile.id user)]).

Definition fetchConnections (user : Profile.t) (db : Store.Db) (st : State)
  : State :=
  {| connections := fetchConnections_data user db;
     showAddContact := showAddContact st;
     pinToAdd := pinToAdd st; error := error st |}.

(** [handleAddContact], for the signed-in [user] and the PIN typed into
    [pinToAdd].  The requests run under the session of [user], so
    [auth.uid()] is [user.id].  (The [catch] branch is taken when a request
    throws instead of answering with [error]; the store never does.) *)
Definition handleAddContact (user : Profile.t) (db : Store.Db) (st : State)
           (new_id : uuid) (now : timestamptz) : Store.Db * State :=
  match Store.single
          (Store.select_profiles (Profile.id user) db
             [Store.p_eq Profile.private_pin (pinToAdd st)]) with
  | inr _ => (db, setError st "User not found with this PIN")
  | inl profile =>
      if String.eqb (Profile.id profile) (Profile.id user)
      then (db, setError st "You cannot add yourself")
      else
        match Store.insert_connections (Profile.id user) db
                {| Store.nc_user_id := Some (Profile.id user);
                   Store.nc_connected_user_id := Some (Profile.id profile) |}
                new_id now with
        | inr _ => (db, setError st "Failed to add contact")
        | inl db' =>
            (db', fetchConnections user db'
                    {| connections := connections st;
                       showAddContact := false;
                       pinToAdd := "";
                       error := error st |})
        end
  end.

(** [handleSendMessage], for the text [message] of the input and the
    selected contact; the result is the store and the text of the input
    afterwards.  [trim] is [String.prototype.trim]; the empty string is
    the one falsy string.  The [catch] branch only logs. *)
Definition handleSendMessage (trim : string -> string) (user : Profile.t)
           (db : Store.Db) (message : string) (currentChat : option Profile.t)
           (new_id : uuid) (now : timestamptz) : Store.Db * string :=
  match currentChat with
  | None => (db, message)
  | Some contact =>
      if String.eqb (trim message) "" then (db, message)
      else
        match useChatStore.sendMessage (Profile.id user) db message
                (Profile.id contact) new_id now with
        | (db', Resolved _) => (db', "")
        | (db', _) => (db', message)
        end
  end.

(** The effect on [currentChat]:
    [if (user && currentChat) fetchChats(user.id, currentChat.id)]. *)
Definition currentChat_effect (tie : Store.TieOrder Chat.t)
           (user : option Profile.t) (db : Store.Db)
           (st : useChatStore.State) : useChatStore.State :=
  match user, useChatStore.currentChat st with
  | Some u, Some contact =>
      useChatStore.fetchChats tie (Profile.id u) db st (Profile.id u)
        (Profile.id contact)
  | _, _ => st
  end.

(** [isOwn] of the message list: [chat.sender_id === user?.id]. *)
Definition isOwn (user : option Profile.t) (chat : Chat.t) : bool :=
  match user with
  | Some u => String.eqb (Chat.sender_id chat) (Profile.id u)
  | None => false
  end.

End ChatPage.

(** ** [src/App.tsx] *)

Module App.

(** The three routes of [<Routes>]. *)
Inductive Route := root | auth | chat.

Inductive Element :=
| Spinner
| Navigate (to : Route)
| AuthElement
| ChatElement.

(** The element that [App] renders on a route. *)
Definition App (st : useAuthStore.State) (path : Route) : Element :=
  if useAuthStore.loading st then Spinner
  else
    match path, useAuthStore.user st with
    | root, Some _ => Navigate chat
    | root, None => Navigate auth
    | auth, Some _ => Navigate chat
    | auth, None => AuthElement
    | chat, Some _ => ChatElement
    | chat, None => Navigate auth
    end.

(** Following [<Navigate>] elements, at most [redirects] times. *)
Fixpoint settle (redirects : nat) (st : useAuthStore.State) (path : Route)
  : Element :=
  match App st path with
  | Navigate to =>
      match redirects with
      | O => Navigate to
      | S k => settle k st to
      end
  | e => e
  end.

End App.

(** ** The words of the specification, as predicates *)

Module Spec.

(** The pair {sender, receiver} of [m] is {a, b}, in either direction. *)
Definition between (a b : uuid) (m : Chat.t) : bool :=
  (String.eqb (Chat.sender_id m) a && String.eqb (Chat.receiver_id m) b)
  || (String.eqb (Chat.sender_id m) b && String.eqb (Chat.receiver_id m) a).

(** "ordering is by created_at ascending, ties broken by id". *)
Definition created_at_then_id (x y : Chat.t) : bool :=
  (Chat.created_at x <? Chat.created_at y)
  || ((Chat.created_at x =? Chat.created_at y)
      && String.leb (Chat.id x) (Chat.id y)).

Fixpoint sorted_by {A : Type} (le : A -> A -> bool) (l : list A) : bool :=
  match l with
  | [] => true
  | x :: t => forallb (le x) t && sorted_by le t
  end.

Definition is_digit (c : ascii) : bool :=
  ((48 <=? nat_of_ascii c) && (nat_of_ascii c <=? 57))%nat.

Fixpoint all_digits (s : string) : bool :=
  match s with
  | EmptyString => true
  | String c rest => is_digit c && all_digits rest
  end.

(** [^[0-9]{6}$] *)
Definition is_pin (s : string) : bool :=
  (String.length s =? 6)%nat && all_digits s.

(** The number that a string of decimal digits denotes. *)
Fixpoint decimal_value_from (acc : Z) (s : string) : Z :=
  match s with
  | EmptyString => acc
  | String c rest =>
      decimal_value_from (10 * acc + (Z.of_nat (nat_of_ascii c) - 48)) rest
  end.

Definition decimal_value (s : string) : Z := decimal_value_from 0 s.

(** The filter the specification asks of the change feed: the subscriber is
    the sender or the receiver. *)
Definition involves (u : uuid) (m : Chat.t) : bool :=
  String.eqb (Chat.sender_id m) u || String.eqb (Chat.receiver_id m) u.

End Spec.

(** ** Concrete stores used below *)

Module Example.

Definition alice : uuid := "11111111-1111-4111-8111-111111111111".
Definition bob : uuid := "22222222-2222-4222-8222-222222222222".
Definition carol : uuid := "33333333-3333-4333-8333-333333333333".

Definition profile_of (u : uuid) (pin name : string) : Profile.t :=
  Profile.mk u pin name None 0 0.

Definition alice_profile := profile_of alice "111111" "Alice".
Definition bob_profile := profile_of bob "222222" "Bob".
Definition carol_profile := profile_of carol "333333" "Carol".

(** Three users, no edge, no message. *)
Definition db0 : Store.Db :=
  {| Store.auth_users := [alice; bob; carol];
     Store.profiles := [alice_profile; bob_profile; carol_profile];
     Store.connections := [];
     Store.chats := [] |}.

Definition msg (i s r : uuid) (t : timestamptz) : Chat.t :=
  Chat.mk i s r "hi" t false.

Definition id1 : uuid := "00000000-0000-4000-8000-000000000001".
Definition id2 : uuid := "00000000-0000-4000-8000-000000000002".
Definition id3 : uuid := "00000000-0000-4000-8000-000000000003".
Definition id4 : uuid := "00000000-0000-4000-8000-000000000004".

(** M1 (t = 1 s), M2 (t = 2 s), M3 (t = 1.5 s) between Alice and Bob,
    inserted in this order, and a message between Bob and Carol. *)
Definition M1 := msg id1 alice bob 1000000.
Definition M2 := msg id2 bob alice 2000000.
Definition M3 := msg id3 alice bob 1500000.
Definition M4 := msg id4 bob carol 1200000.

Definition db_chats : Store.Db := Store.set_chats db0 [M1; M2; M3; M4].

(** Two messages of one statement (one [now()]); the first row scanned has
    the larger id. *)
Definition T1 := msg id2 alice bob 1000000.
Definition T2 := msg id1 alice bob 1000000.

Definition db_ties : Store.Db := Store.set_chats db0 [T1; T2].

(** Values of [RANDOM()] whose candidates are "111111" and "222222", both
    taken in [db0], and then "000042". *)
Definition RANDOM_two_collisions (i : nat) : Sql.double :=
  match i with
  | O => Sql.mkDouble 1000803419993153 (- 53)
  | S O => Sql.mkDouble 2001602336386680 (- 53)
  | _ => Sql.mkDouble 382805968326 (- 53)
  end.

(** [RANDOM()] answering 0 every time, and a store whose one profile has
    the PIN "000000". *)
Definition RANDOM_zero (i : nat) : Sql.double := Sql.mkDouble 0 0.

(** Two neighbouring doubles, 2361201255833332 / 2^52 and the next one.
    The exact product of the first with 1000000 is just below 524292; in
    double precision it is 524292. *)
Definition r524292 : Sql.double := Sql.mkDouble 2361201255833332 (- 52).
Definition r524292_next : Sql.double := Sql.mkDouble 2361201255833333 (- 52).

(** The policies of [profiles] with the INSERT policy that the two other
    tables have: a caller may insert its own row. *)
Definition profiles_policies_with_insert
  : Store.Policies Profile.t Store.NewProfile :=
  {| Store.for_select := Store.for_select Store.profiles_policies;
     Store.for_insert := [fun uid n => Store.uid_eq uid (Store.np_id n)];
     Store.for_update := Store.for_update Store.profiles_policies;
     Store.for_delete := Store.for_delete Store.profiles_policies |}.

Definition dave : uuid := "44444444-4444-4444-8444-444444444444".

Definition db_zero : Store.Db :=
  {| Store.auth_users := [dave];
     Store.profiles := [profile_of dave "000000" "Dave"];
     Store.connections := [];
     Store.chats := [] |}.

(** [db0] with the edges Alice -> Bob and Carol -> Alice. *)
Definition db_edges : Store.Db :=
  Store.set_connections db0
    [Connection.mk id1 alice bob 5; Connection.mk id2 carol alice 6].

(** A new account, not yet in [db0]. *)
Definition erin : uuid := "55555555-5555-4555-8555-555555555555".

(** [RANDOM()] answering 0 for the first [n] draws and 1/2 afterwards. *)
Definition RANDOM_zero_until (n i : nat) : Sql.double :=
  if (i <? n)%nat then Sql.mkDouble 0 0 else Sql.mkDouble 1 (- 1).

(** The "Add Contact" dialog with [pin] typed in. *)
Definition typing (pin : string) : ChatPage.State :=
  {| ChatPage.connections := []; ChatPage.showAddContact := true;
     ChatPage.pinToAdd := pin; ChatPage.error := "" |}.

End Example.

(** * Properties *)

(** ** Conversation retrieval *)

Section OrderBy.

Context {Row : Type} (key : Row -> Z).

Lemma insert_by_perm (x : Row) (l : list Row) :
  Permutation (x :: l) (Store.insert_by key x l).
Proof.
  induction l as [|h t IH]; simpl; [reflexivity|].
  destruct (key x <=? key h); [reflexivity|].
  rewrite perm_swap. now apply perm_skip.
Qed.

Lemma sort_by_perm (l : list Row) : Permutation l (Store.sort_by key l).
Proof.
  induction l as [|x t IH]; simpl; [constructor|].
  rewrite <- insert_by_perm. now apply perm_skip.
Qed.

Lemma insert_by_sorted (x : Row) (l : list Row) :
  StronglySorted (Store.ascending key) l ->
  StronglySorted (Store.ascending key) (Store.insert_by key x l).
Proof.
  induction 1 as [|h t Hs IH Hall]; simpl.
  - repeat constructor.
  - destruct (Z.leb_spec (key x) (key h)) as [Hle|Hgt].
    + constructor; [now constructor|].
      constructor; [exact Hle|].
      eapply Forall_impl; [|exact Hall].
      unfold Store.ascending; intros; lia.
    + constructor; [exact IH|].
      eapply Permutation_Forall; [apply insert_by_perm|].
      constructor; [unfold Store.ascending; lia | exact Hall].
Qed.

Lemma sort_by_sorted (l : list Row) :
  StronglySorted (Store.ascending key) (Store.sort_by key l).
Proof.
  induction l as [|x t IH]; simpl; [constructor|].
  now apply insert_by_sorted.
Qed.

(** Whatever the store does with ties, [ORDER BY] gives the same rows, by
    ascending key. *)
Lemma order_by_perm (tie : Store.TieOrder Row) (l : list Row) :
  Permutation l (Store.order_by tie key l).
Proof.
  unfold Store.order_by.
  rewrite <- sort_by_perm. apply Store.arrange_perm.
Qed.

Lemma order_by_sorted (tie : Store.TieOrder Row) (l : list Row) :
  StronglySorted (Store.ascending key) (Store.order_by tie key l).
Proof. apply sort_by_sorted. Qed.

End OrderBy.

(** Two ascending lists of integers with the same elements are equal. *)
Lemma sorted_perm_eq (l1 l2 : list Z) :
  Permutation l1 l2 ->
  StronglySorted Z.le l1 -> StronglySorted Z.le l2 -> l1 = l2.
Proof.
  revert l2. induction l1 as [|x t IH]; intros l2 P S1 S2.
  - now apply Permutation_nil in P.
  - destruct l2 as [|y t2];
      [apply Permutation_sym, Permutation_nil in P; discriminate|].
    apply StronglySorted_inv in S1. destruct S1 as [S1 F1].
    apply StronglySorted_inv in S2. destruct S2 as [S2 F2].
    rewrite Forall_forall in F1, F2.
    assert (Hxy : x = y).
    { assert (Hx : In x (y :: t2))
        by (apply (Permutation_in _ P); now left).
      assert (Hy : In y (x :: t))
        by (apply (Permutation_in _ (Permutation_sym P)); now left).
      destruct Hx as [Hx|Hx]; [now symmetry|].
      destruct Hy as [Hy|Hy]; [exact Hy|].
      pose proof (F1 y Hy). pose proof (F2 x Hx). lia. }
    subst y. f_equal. apply IH; [|exact S1|exact S2].
    exact (Permutation_cons_inv P).
Qed.

Lemma sorted_map {Row : Type} (key : Row -> Z) (l : list Row) :
  StronglySorted (Store.ascending key) l ->
  StronglySorted Z.le (map key l).
Proof.
  induction 1 as [|x t S IH F]; cbn; constructor; [exact IH|].
  rewrite Forall_forall in *. intros k Hk. apply in_map_iff in Hk.
  destruct Hk as (y & <- & Hy). exact (F y Hy).
Qed.

(** Two results of [ORDER BY] over the same rows show the same keys in the
    same places, however ties were arranged. *)
Lemma sorted_perm_keys_eq {Row : Type} (key : Row -> Z) (l1 l2 : list Row) :
  Permutation l1 l2 ->
  StronglySorted (Store.ascending key) l1 ->
  StronglySorted (Store.ascending key) l2 ->
  map key l1 = map key l2.
Proof.
  intros P S1 S2. apply sorted_perm_eq.
  - now apply Permutation_map.
  - now apply sorted_map.
  - now apply sorted_map.
Qed.

Lemma filter_filter {A : Type} (f g : A -> bool) (l : list A) :
  filter f (filter g l) = filter (fun x => g x && f x) l.
Proof.
  induction l as [|x t IH]; [reflexivity|].
  simpl. destruct (g x); simpl; [destruct (f x)|]; now rewrite IH.
Qed.

(** For distinct users, and a caller who is one of them, the two [or]
    parameters of [fetchChats] and the SELECT policy of [chats] together
    keep exactly the rows between the two users. *)
Lemma fetchChats_filter (uid a b : uuid) (m : Chat.t) :
  a <> b -> uid = a \/ uid = b ->
  Store.permitted (Store.for_select Store.chats_policies) uid m
  && Store.matches
       [ Store.p_or [(Chat.sender_id, a); (Chat.receiver_id, a)];
         Store.p_or [(Chat.sender_id, b); (Chat.receiver_id, b)] ] m
  = Spec.between a b m.
Proof.
  intros Hab Huid. unfold Spec.between. cbn.
  destruct (String.eqb_spec (Chat.sender_id m) a) as [Hsa|Hsa];
    destruct (String.eqb_spec (Chat.sender_id m) b) as [Hsb|Hsb];
    destruct (String.eqb_spec (Chat.receiver_id m) a) as [Hra|Hra];
    destruct (String.eqb_spec (Chat.receiver_id m) b) as [Hrb|Hrb];
    try congruence;
    destruct (String.eqb_spec uid (Chat.sender_id m)) as [Hus|Hus];
    destruct (String.eqb_spec uid (Chat.receiver_id m)) as [Hur|Hur];
    cbn; try reflexivity; destruct Huid; congruence.
Qed.

Lemma fetchChats_rows (tie : Store.TieOrder Chat.t) (uid : uuid)
      (db : Store.Db) (a b : uuid) :
  a <> b -> uid = a \/ uid = b ->
  useChatStore.fetchChats_data tie uid db a b
  = Store.order_by tie Chat.created_at
      (filter (Spec.between a b) (Store.chats db)).
Proof.
  intros Hab Huid. unfold useChatStore.fetchChats_data, Store.select_chats,
    Store.visible.
  rewrite filter_filter. f_equal. apply filter_ext.
  intros m. now apply fetchChats_filter.
Qed.

(** C1, as the code has it: for distinct users [a] and [b] and a caller who
    is one of them, [fetchChats] stores exactly the messages between [a] and
    [b] (each row once), by ascending [created_at].  The request names no
    second sort key: this holds for every order [tie] in which the store
    may leave messages of one [created_at], and nothing more is said about
    that order. *)
Theorem fetchChats_between_by_created_at :
  forall (tie : Store.TieOrder Chat.t) (uid : uuid) (db : Store.Db)
         (st : useChatStore.State) (a b : uuid),
    a <> b -> uid = a \/ uid = b ->
    let res :=
      useChatStore.chats (useChatStore.fetchChats tie uid db st a b) in
    (forall m, In m res <-> In m (Store.chats db) /\ Spec.between a b m = true)
    /\ Permutation (filter (Spec.between a b) (Store.chats db)) res
    /\ StronglySorted (Store.ascending Chat.created_at) res.
Proof.
  intros tie uid db st a b Hab Huid. cbn.
  rewrite (fetchChats_rows tie uid db a b Hab Huid).
  split; [|split].
  - intros m. rewrite <- filter_In. split; intros H.
    + eapply Permutation_in; [symmetry; apply order_by_perm | exact H].
    + eapply Permutation_in; [apply order_by_perm | exact H].
  - apply order_by_perm.
  - apply order_by_sorted.
Qed.

Lemma fetchChats_between_by_created_at_witness :
  Example.alice <> Example.bob
  /\ useChatStore.chats
       (useChatStore.fetchChats (Store.scan_order Chat.t) Example.alice
          Example.db_chats useChatStore.initial Example.alice Example.bob)
     = [Example.M1; Example.M3; Example.M2]
  /\ StronglySorted (Store.ascending Chat.created_at)
       (useChatStore.chats
          (useChatStore.fetchChats (Store.scan_order Chat.t) Example.alice
             Example.db_chats useChatStore.initial Example.alice
             Example.bob)).
Proof.
  assert (Hne : Example.alice <> Example.bob) by discriminate.
  split; [exact Hne|]. split; [reflexivity|].
  exact (proj2 (proj2
    (fetchChats_between_by_created_at (Store.scan_order Chat.t)
       Example.alice Example.db_chats useChatStore.initial Example.alice
       Example.bob Hne (or_introl eq_refl)))).
Defined.

(** C1 as stated fails: two messages between Alice and Bob with the same
    [created_at], left by the store in the order of the scan (one of the
    orders it may give, and the one of a sort of two rows), are returned
    the larger id first, which is not the order "ties broken by id". *)
Lemma fetchChats_ties_not_broken_by_id :
  Example.alice <> Example.bob
  /\ useChatStore.chats
       (useChatStore.fetchChats (Store.scan_order Chat.t) Example.alice
          Example.db_ties useChatStore.initial Example.alice Example.bob)
     = [Example.T1; Example.T2]
  /\ Spec.sorted_by Spec.created_at_then_id [Example.T1; Example.T2] = false
  /\ Spec.sorted_by Spec.created_at_then_id [Example.T2; Example.T1] = true.
Proof.
  split; [discriminate|]. repeat split; reflexivity.
Qed.

(** ** Connection formation *)

Lemma visible_profiles (uid : uuid) (l : list Profile.t) :
  Store.visible Store.profiles_policies uid l = l.
Proof.
  unfold Store.visible. induction l as [|p t IH]; [reflexivity|].
  cbn. now f_equal.
Qed.

Lemma select_profiles_by_pin (uid : uuid) (db : Store.Db) (pin : string) :
  Store.select_profiles uid db [Store.p_eq Profile.private_pin pin]
  = filter (fun p => String.eqb (Profile.private_pin p) pin)
      (Store.profiles db).
Proof.
  unfold Store.select_profiles. rewrite visible_profiles.
  apply filter_ext. intros p. cbn. now rewrite andb_true_r.
Qed.

Lemma filter_pin_none (pin : string) (l : list Profile.t) :
  (forall p, In p l -> Profile.private_pin p <> pin) ->
  filter (fun p => String.eqb (Profile.private_pin p) pin) l = [].
Proof.
  induction l as [|q t IH]; intros H; [reflexivity|].
  simpl. destruct (String.eqb_spec (Profile.private_pin q) pin) as [E|E].
  - exfalso. apply (H q); [now left | exact E].
  - apply IH. intros p Hp. apply H. now right.
Qed.

(** Under the UNIQUE constraint on [private_pin], the lookup by PIN finds
    the one profile that carries it. *)
Lemma filter_pin_unique (p : Profile.t) (l : list Profile.t) :
  NoDup (map Profile.private_pin l) -> In p l ->
  filter (fun q => String.eqb (Profile.private_pin q) (Profile.private_pin p))
         l = [p].
Proof.
  induction l as [|q t IH]; intros Hnd Hin; [contradiction|].
  simpl in Hnd. inversion Hnd as [|x xs Hnotin Hnd']; subst.
  simpl. destruct Hin as [->|Hin].
  - rewrite String.eqb_refl. f_equal. apply filter_pin_none.
    intros r Hr E. apply Hnotin. rewrite <- E. now apply in_map.
  - destruct (String.eqb_spec (Profile.private_pin q) (Profile.private_pin p))
      as [E|E].
    + exfalso. apply Hnotin. rewrite E. now apply in_map.
    + now apply IH.
Qed.

Lemma has_profile_In (db : Store.Db) (p : Profile.t) :
  In p (Store.profiles db) -> Store.has_profile db (Profile.id p) = true.
Proof.
  intros H. unfold Store.has_profile. apply existsb_exists.
  exists p. split; [exact H | apply String.eqb_refl].
Qed.

(** What the store answers to the INSERT of the edge [a -> b] issued by
    [a]: accepted exactly when the id is new, the edge is new and both
    ends have a profile. *)
Lemma insert_connections_own (db : Store.Db) (a b new_id : uuid)
      (now : timestamptz) :
  Store.insert_connections a db
    {| Store.nc_user_id := Some a; Store.nc_connected_user_id := Some b |}
    new_id now
  = if existsb (fun c => String.eqb (Connection.id c) new_id)
               (Store.connections db)
    then inr (Store.UniqueViolation "connections_pkey")
    else if Store.has_edge db a b
    then inr (Store.UniqueViolation
                "connections_user_id_connected_user_id_key")
    else if negb (Store.has_profile db a)
    then inr (Store.ForeignKeyViolation "connections_user_id_fkey")
    else if negb (Store.has_profile db b)
    then inr (Store.ForeignKeyViolation "connections_connected_user_id_fkey")
    else inl (Store.set_connections db
                (Store.connections db ++ [Connection.mk new_id a b now])).
Proof.
  unfold Store.insert_connections. cbn. rewrite String.eqb_refl. cbn.
  destruct (existsb _ (Store.connections db)); cbn; [reflexivity|].
  destruct (Store.has_edge db a b); cbn; [reflexivity|].
  destruct (Store.has_profile db a); cbn; [|reflexivity].
  destruct (Store.has_profile db b); reflexivity.
Qed.

Lemma has_edge_snoc (db : Store.Db) (c : Connection.t) (a b : uuid) :
  Store.has_edge (Store.set_connections db (Store.connections db ++ [c])) a b
  = Store.has_edge db a b
    || (String.eqb (Connection.user_id c) a
        && String.eqb (Connection.connected_user_id c) b).
Proof.
  unfold Store.has_edge. cbn. rewrite existsb_app. cbn.
  now rewrite orb_false_r.
Qed.

(** C2: [handleAddContact] first looks up the profile whose [private_pin]
    is the typed PIN.  When no profile carries it, it fails with "User not
    found with this PIN"; when the profile found is the requester's own, it
    fails with "You cannot add yourself"; otherwise it inserts the one edge
    requester -> target (appended to [connections] when the store accepts
    the row: new id, edge not yet present, requester has a profile).  No
    call creates an edge that points to the requester, so the reciprocal
    edge is never created, and no call adds more than one row. *)
Theorem handleAddContact_steps :
  forall (user : Profile.t) (db : Store.Db) (st : ChatPage.State)
         (new_id : uuid) (now : timestamptz),
    Store.pins_unique db ->
    let r := ChatPage.handleAddContact user db st new_id now in
    ((forall p, In p (Store.profiles db) ->
                Profile.private_pin p <> ChatPage.pinToAdd st) ->
     r = (db, ChatPage.setError st "User not found with this PIN"))
    /\ (forall target,
          In target (Store.profiles db) ->
          Profile.private_pin target = ChatPage.pinToAdd st ->
          (Profile.id target = Profile.id user ->
           r = (db, ChatPage.setError st "You cannot add yourself"))
          /\ (Profile.id target <> Profile.id user ->
              In user (Store.profiles db) ->
              Store.has_edge db (Profile.id user) (Profile.id target) = false ->
              existsb (fun c => String.eqb (Connection.id c) new_id)
                      (Store.connections db) = false ->
              Store.connections (fst r)
              = (Store.connections db
                   ++ [Connection.mk new_id (Profile.id user)
                         (Profile.id target) now])%list
              /\ Store.profiles (fst r) = Store.profiles db
              /\ Store.chats (fst r) = Store.chats db
              /\ Store.auth_users (fst r) = Store.auth_users db
              /\ ChatPage.showAddContact (snd r) = false
              /\ ChatPage.pinToAdd (snd r) = ""
              /\ ChatPage.error (snd r) = ChatPage.error st))
    /\ (forall x, Store.has_edge (fst r) x (Profile.id user)
                  = Store.has_edge db x (Profile.id user))
    /\ (List.length (Store.connections (fst r))
        <= S (List.length (Store.connections db)))%nat.
Proof.
  intros user db st new_id now Hnd r.
  split; [|split; [|split]].
  - intros Hnone. subst r. unfold ChatPage.handleAddContact.
    rewrite select_profiles_by_pin, filter_pin_none by exact Hnone.
    reflexivity.
  - intros target Hin Hpin.
    assert (Hsel :
      Store.single
        (Store.select_profiles (Profile.id user) db
           [Store.p_eq Profile.private_pin (ChatPage.pinToAdd st)])
      = inl target).
    { rewrite select_profiles_by_pin, <- Hpin.
      now rewrite filter_pin_unique. }
    split.
    + intros Hself. subst r. unfold ChatPage.handleAddContact.
      rewrite Hsel, Hself, String.eqb_refl. reflexivity.
    + intros Hother Huser Hedge Hfresh. subst r.
      unfold ChatPage.handleAddContact. rewrite Hsel.
      apply String.eqb_neq in Hother. rewrite Hother.
      rewrite insert_connections_own, Hfresh, Hedge.
      rewrite (has_profile_In db user Huser), (has_profile_In db target Hin).
      cbn. repeat split; reflexivity.
  - intros x. subst r. unfold ChatPage.handleAddContact.
    destruct (Store.single _) as [profile|e]; [|reflexivity].
    destruct (String.eqb_spec (Profile.id profile) (Profile.id user))
      as [E|E]; [reflexivity|].
    rewrite insert_connections_own.
    repeat match goal with
           | |- context [if ?c then _ else _] => destruct c; try reflexivity
           end.
    cbn [fst]. rewrite has_edge_snoc. cbn.
    apply String.eqb_neq in E. rewrite E.
    now rewrite andb_false_r, orb_false_r.
  - subst r. unfold ChatPage.handleAddContact.
    destruct (Store.single _) as [profile|e]; [|cbn; lia].
    destruct (String.eqb (Profile.id profile) (Profile.id user)); [cbn; lia|].
    rewrite insert_connections_own.
    repeat match goal with
           | |- context [if ?c then _ else _] => destruct c; try (cbn; lia)
           end.
    cbn. rewrite length_app. cbn. lia.
Qed.

Lemma handleAddContact_steps_witness :
  Store.pins_unique Example.db0
  /\ ChatPage.handleAddContact Example.alice_profile Example.db0
       (Example.typing "999999") Example.id1 5
     = (Example.db0,
        ChatPage.setError (Example.typing "999999")
          "User not found with this PIN")
  /\ ChatPage.handleAddContact Example.alice_profile Example.db0
       (Example.typing "111111") Example.id1 5
     = (Example.db0,
        ChatPage.setError (Example.typing "111111") "You cannot add yourself")
  /\ Store.connections
       (fst (ChatPage.handleAddContact Example.alice_profile Example.db0
               (Example.typing "222222") Example.id1 5))
     = [Connection.mk Example.id1 Example.alice Example.bob 5]
  /\ Store.has_edge
       (fst (ChatPage.handleAddContact Example.alice_profile Example.db0
               (Example.typing "222222") Example.id1 5))
       Example.bob Example.alice = false.
Proof.
  assert (Hnd : Store.pins_unique Example.db0).
  { repeat constructor; simpl; intuition discriminate. }
  split; [exact Hnd|]. split; [|split; [|split]].
  - apply (proj1 (handleAddContact_steps Example.alice_profile Example.db0
                    (Example.typing "999999") Example.id1 5 Hnd)).
    simpl. intuition (subst; discriminate).
  - apply (proj1 (proj1 (proj2
             (handleAddContact_steps Example.alice_profile Example.db0
                (Example.typing "111111") Example.id1 5 Hnd))
             Example.alice_profile (or_introl eq_refl) eq_refl)).
    reflexivity.
  - apply (proj1 (proj2 (proj1 (proj2
             (handleAddContact_steps Example.alice_profile Example.db0
                (Example.typing "222222") Example.id1 5 Hnd))
             Example.bob_profile (or_intror (or_introl eq_refl)) eq_refl)
             ltac:(discriminate) (or_introl eq_refl) eq_refl eq_refl)).
  - exact (proj1 (proj2 (proj2
             (handleAddContact_steps Example.alice_profile Example.db0
                (Example.typing "222222") Example.id1 5 Hnd)))
             Example.bob).
Defined.

Lemma existsb_false_filter {A : Type} (f : A -> bool) (l : list A) :
  existsb f l = false -> filter f l = [].
Proof.
  induction l as [|x t IH]; [reflexivity|].
  simpl. destruct (f x); [discriminate|]. exact IH.
Qed.

(** A call of [handleAddContact] that changed [connections] found one
    profile for the PIN, not the requester's, and appended the edge to it,
    which was not there before. *)
Lemma handleAddContact_added (user : Profile.t) (db : Store.Db)
      (st : ChatPage.State) (new_id : uuid) (now : timestamptz) :
  Store.connections (fst (ChatPage.handleAddContact user db st new_id now))
  <> Store.connections db ->
  exists target,
    filter (fun p => String.eqb (Profile.private_pin p) (ChatPage.pinToAdd st))
           (Store.profiles db) = [target]
    /\ Profile.id target <> Profile.id user
    /\ Store.has_edge db (Profile.id user) (Profile.id target) = false
    /\ fst (ChatPage.handleAddContact user db st new_id now)
       = Store.set_connections db
           (Store.connections db
              ++ [Connection.mk new_id (Profile.id user) (Profile.id target)
                    now]).
Proof.
  unfold ChatPage.handleAddContact. rewrite select_profiles_by_pin.
  destruct (filter _ (Store.profiles db)) as [|target [|q l]];
    cbn [Store.single fst]; try congruence.
  destruct (String.eqb_spec (Profile.id target) (Profile.id user)) as [E|E];
    cbn [fst]; [congruence|].
  rewrite insert_connections_own.
  destruct (existsb _ (Store.connections db)); cbn [fst]; [congruence|].
  destruct (Store.has_edge db (Profile.id user) (Profile.id target)) eqn:He;
    cbn [fst]; [congruence|].
  destruct (Store.has_profile db (Profile.id user)); cbn [fst negb];
    [|congruence].
  destruct (Store.has_profile db (Profile.id target)); cbn [fst negb];
    [|congruence].
  intros _. exists target. repeat split; trivial.
Qed.

(** C6: after a call of [handleAddContact] that created the edge
    requester -> target, a second call with the same PIN is refused by the
    store with a uniqueness violation, the page reports "Failed to add
    contact", the store is left as it was, and it still holds the edge
    exactly once. *)
Theorem handleAddContact_twice_fails :
  forall (user : Profile.t) (db : Store.Db) (st st' : ChatPage.State)
         (id1 id2 : uuid) (now1 now2 : timestamptz),
    let db1 := fst (ChatPage.handleAddContact user db st id1 now1) in
    Store.connections db1 <> Store.connections db ->
    ChatPage.pinToAdd st' = ChatPage.pinToAdd st ->
    ChatPage.handleAddContact user db1 st' id2 now2
    = (db1, ChatPage.setError st' "Failed to add contact")
    /\ exists target e,
        In target (Store.profiles db)
        /\ Profile.private_pin target = ChatPage.pinToAdd st
        /\ Store.insert_connections (Profile.id user) db1
             {| Store.nc_user_id := Some (Profile.id user);
                Store.nc_connected_user_id := Some (Profile.id target) |}
             id2 now2 = inr e
        /\ Store.is_unique_violation e = true
        /\ (existsb (fun c => String.eqb (Connection.id c) id2)
                    (Store.connections db1) = false ->
            e = Store.UniqueViolation
                  "connections_user_id_connected_user_id_key")
        /\ List.length
             (Store.edges db1 (Profile.id user) (Profile.id target)) = 1%nat.
Proof.
  intros user db st st' id1 id2 now1 now2 db1 Hchanged Hpin.
  destruct (handleAddContact_added user db st id1 now1 Hchanged)
    as (target & Hsel & Hother & Hedge & Hdb1).
  fold db1 in Hdb1.
  assert (Hedge1 :
    Store.has_edge db1 (Profile.id user) (Profile.id target) = true).
  { rewrite Hdb1, has_edge_snoc. cbn. rewrite !String.eqb_refl.
    apply orb_true_r. }
  assert (Hins : exists e,
    Store.insert_connections (Profile.id user) db1
      {| Store.nc_user_id := Some (Profile.id user);
         Store.nc_connected_user_id := Some (Profile.id target) |}
      id2 now2 = inr e
    /\ Store.is_unique_violation e = true
    /\ (existsb (fun c => String.eqb (Connection.id c) id2)
                (Store.connections db1) = false ->
        e = Store.UniqueViolation
              "connections_user_id_connected_user_id_key")).
  { rewrite insert_connections_own, Hedge1.
    destruct (existsb _ (Store.connections db1)); eexists; repeat split;
      try reflexivity; discriminate. }
  destruct Hins as (e & Hins & Huniq & Hpair).
  split.
  - unfold ChatPage.handleAddContact. rewrite select_profiles_by_pin, Hpin.
    replace (Store.profiles db1) with (Store.profiles db)
      by (rewrite Hdb1; reflexivity).
    rewrite Hsel. cbn [Store.single].
    apply String.eqb_neq in Hother. rewrite Hother, Hins. reflexivity.
  - exists target, e.
    assert (Hin : In target
      (filter (fun p => String.eqb (Profile.private_pin p)
                                   (ChatPage.pinToAdd st))
              (Store.profiles db))) by (rewrite Hsel; now left).
    apply filter_In in Hin. destruct Hin as [Hin Heq].
    apply String.eqb_eq in Heq.
    repeat split; trivial.
    rewrite Hdb1. unfold Store.edges. cbn [Store.connections
      Store.set_connections]. rewrite filter_app.
    rewrite (existsb_false_filter _ _ Hedge). cbn.
    now rewrite !String.eqb_refl.
Qed.

Lemma handleAddContact_twice_fails_witness :
  Store.connections
    (fst (ChatPage.handleAddContact Example.alice_profile Example.db0
            (Example.typing "222222") Example.id1 5))
  <> Store.connections Example.db0
  /\ ChatPage.handleAddContact Example.alice_profile
       (fst (ChatPage.handleAddContact Example.alice_profile Example.db0
               (Example.typing "222222") Example.id1 5))
       (Example.typing "222222") Example.id2 6
     = (fst (ChatPage.handleAddContact Example.alice_profile Example.db0
               (Example.typing "222222") Example.id1 5),
        ChatPage.setError (Example.typing "222222") "Failed to add contact").
Proof.
  assert (H : Store.connections
    (fst (ChatPage.handleAddContact Example.alice_profile Example.db0
            (Example.typing "222222") Example.id1 5))
    <> Store.connections Example.db0) by discriminate.
  split; [exact H|].
  exact (proj1 (handleAddContact_twice_fails Example.alice_profile
                  Example.db0 (Example.typing "222222")
                  (Example.typing "222222") Example.id1 Example.id2 5 6
                  H eq_refl)).
Defined.

(** The uniqueness constraint on edges is kept by every INSERT into
    [connections], so by every call of [handleAddContact]: no edge is ever
    stored twice. *)
Lemma insert_connections_keeps_edges_unique (uid : uuid) (db db' : Store.Db)
      (n : Store.NewConnection) (new_id : uuid) (now : timestamptz) :
  Store.edges_unique db ->
  Store.insert_connections uid db n new_id now = inl db' ->
  Store.edges_unique db'.
Proof.
  unfold Store.edges_unique, Store.insert_connections. intros Hnd.
  destruct (Store.permitted _ uid n); cbn; [|discriminate].
  destruct (Store.nc_user_id n) as [a|]; cbn; [|discriminate].
  destruct (Store.nc_connected_user_id n) as [b|]; cbn; [|discriminate].
  destruct (existsb _ (Store.connections db)); cbn; [discriminate|].
  destruct (Store.has_edge db a b) eqn:He; cbn; [discriminate|].
  destruct (Store.has_profile db a); cbn; [|discriminate].
  destruct (Store.has_profile db b); cbn; [|discriminate].
  intros [= <-]. cbn. rewrite map_app. cbn.
  eapply Permutation_NoDup; [apply Permutation_cons_append|].
  constructor; [|exact Hnd].
  intros Hin. apply in_map_iff in Hin. destruct Hin as (c & Hc & Hin).
  injection Hc as Ha Hb.
  assert (Ht : Store.has_edge db a b = true).
  { apply existsb_exists. exists c. split; [exact Hin|].
    rewrite Ha, Hb, !String.eqb_refl. reflexivity. }
  congruence.
Qed.

Lemma handleAddContact_keeps_edges_unique (user : Profile.t) (db : Store.Db)
      (st : ChatPage.State) (new_id : uuid) (now : timestamptz) :
  Store.edges_unique db ->
  Store.edges_unique
    (fst (ChatPage.handleAddContact user db st new_id now)).
Proof.
  intros Hnd. unfold ChatPage.handleAddContact.
  destruct (Store.single _) as [profile|e]; [|exact Hnd].
  destruct (String.eqb (Profile.id profile) (Profile.id user)); [exact Hnd|].
  destruct (Store.insert_connections _ db _ new_id now) as [db'|e] eqn:Hins;
    [|exact Hnd].
  exact (insert_connections_keeps_edges_unique _ _ _ _ _ _ Hnd Hins).
Qed.

(** ** Sending and reading messages *)

(** An INSERT into [chats] that leaves [sender_id] out is refused, whoever
    issues it and whatever the other columns are. *)
Lemma insert_chats_without_sender (uid : uuid) (db : Store.Db)
      (n : Store.NewChat) (new_id : uuid) (now : timestamptz) :
  Store.nm_sender_id n = None ->
  Store.insert_chats uid db n new_id now
  = inr (Store.RlsViolation "chats").
Proof.
  intros H. unfold Store.insert_chats. cbn. rewrite H. reflexivity.
Qed.

(** C4: the row that [sendMessage] inserts carries the message and
    [receiver_id] and no [sender_id]; the INSERT policy of [chats] refuses
    it for every caller (and NOT NULL would refuse it next), so for every
    input the store is unchanged and [sendMessage] throws. *)
Theorem sendMessage_always_throws :
  forall (uid : uuid) (db : Store.Db) (message receiverId : string)
         (new_id : uuid) (now : timestamptz),
    Store.nm_sender_id (useChatStore.sendMessage_values message receiverId)
    = None
    /\ Store.permitted (Store.for_insert Store.chats_policies) uid
         (useChatStore.sendMessage_values message receiverId) = false
    /\ Store.not_null "sender_id"
         (Store.nm_sender_id
            (useChatStore.sendMessage_values message receiverId))
       = inr (Store.NotNullViolation "sender_id")
    /\ useChatStore.sendMessage uid db message receiverId new_id now
       = (db, Thrown (StoreError (Store.RlsViolation "chats"))).
Proof.
  intros. split; [reflexivity|]. split; [reflexivity|].
  split; [reflexivity|].
  unfold useChatStore.sendMessage.
  now rewrite insert_chats_without_sender.
Qed.

Lemma in_order_by {Row : Type} (tie : Store.TieOrder Row) (key : Row -> Z)
      (x : Row) (l : list Row) :
  In x (Store.order_by tie key l) <-> In x l.
Proof.
  split; apply Permutation_in;
    [symmetry; apply order_by_perm | apply order_by_perm].
Qed.

(** C8: a message whose sender and receiver are both other than [c] is in
    no result of [fetchChats] called by [c], whatever the two users asked
    for, because the SELECT policy of [chats] hides the row from [c]. *)
Theorem fetchChats_hides_from_third_party :
  forall (tie : Store.TieOrder Chat.t) (db : Store.Db)
         (st : useChatStore.State) (c userId receiverId : uuid) (m : Chat.t),
    Chat.sender_id m <> c -> Chat.receiver_id m <> c ->
    Store.permitted (Store.for_select Store.chats_policies) c m = false
    /\ ~ In m (useChatStore.chats
                 (useChatStore.fetchChats tie c db st userId receiverId)).
Proof.
  intros tie db st c userId receiverId m Hs Hr.
  assert (Hp : Store.permitted (Store.for_select Store.chats_policies) c m
               = false).
  { cbn. apply not_eq_sym in Hs, Hr.
    apply String.eqb_neq in Hs, Hr. now rewrite Hs, Hr. }
  split; [exact Hp|].
  cbn. unfold useChatStore.fetchChats_data. rewrite in_order_by.
  unfold Store.select_chats, Store.visible. rewrite !filter_In.
  intros [[_ Hvis] _]. congruence.
Qed.

Lemma fetchChats_hides_from_third_party_witness :
  In Example.M1 (Store.chats Example.db_chats)
  /\ ~ In Example.M1
       (useChatStore.chats
          (useChatStore.fetchChats (Store.scan_order Chat.t) Example.carol
             Example.db_chats useChatStore.initial Example.alice
             Example.bob))
  /\ ~ In Example.M1
       (useChatStore.chats
          (useChatStore.fetchChats (Store.reverse_scan_order Chat.t)
             Example.carol Example.db_chats useChatStore.initial
             Example.carol Example.bob)).
Proof.
  split; [now left|]. split.
  - exact (proj2 (fetchChats_hides_from_third_party
                    (Store.scan_order Chat.t) Example.db_chats
                    useChatStore.initial Example.carol Example.alice
                    Example.bob Example.M1
                    ltac:(discriminate) ltac:(discriminate))).
  - exact (proj2 (fetchChats_hides_from_third_party
                    (Store.reverse_scan_order Chat.t) Example.db_chats
                    useChatStore.initial Example.carol Example.carol
                    Example.bob Example.M1
                    ltac:(discriminate) ltac:(discriminate))).
Defined.

(** ** The PIN allocator *)

Lemma length_append (a b : string) :
  String.length (a ++ b) = (String.length a + String.length b)%nat.
Proof. induction a as [|c a IH]; simpl; [reflexivity | now rewrite IH]. Qed.

Lemma all_digits_append (a b : string) :
  Spec.all_digits (a ++ b) = Spec.all_digits a && Spec.all_digits b.
Proof.
  induction a as [|c a IH]; simpl; [reflexivity|].
  now rewrite IH, andb_assoc.
Qed.

Lemma decimal_value_append (acc : Z) (a b : string) :
  Spec.decimal_value_from acc (a ++ b)
  = Spec.decimal_value_from (Spec.decimal_value_from acc a) b.
Proof.
  revert acc. induction a as [|c a IH]; intros acc; simpl; [reflexivity|].
  apply IH.
Qed.

Lemma digit_char_cases (d : Z) :
  0 <= d < 10 ->
  Spec.is_digit (Sql.digit_char d) = true
  /\ Z.of_nat (nat_of_ascii (Sql.digit_char d)) - 48 = d.
Proof.
  intros H.
  assert (E : d = 0 \/ d = 1 \/ d = 2 \/ d = 3 \/ d = 4 \/ d = 5 \/ d = 6
              \/ d = 7 \/ d = 8 \/ d = 9) by lia.
  repeat (destruct E as [->|E]; [split; reflexivity|]).
  subst d. split; reflexivity.
Qed.

Lemma digits_S (f : nat) (n : Z) :
  Sql.digits (S f) n
  = if n <? 10 then String (Sql.digit_char n) ""
    else Sql.digits f (n / 10) ++ String (Sql.digit_char (n mod 10)) "".
Proof. reflexivity. Qed.

Lemma div10_bound (n : Z) (k : nat) :
  0 <= n < 10 ^ Z.of_nat (S k) -> 0 <= n / 10 < 10 ^ Z.of_nat k.
Proof.
  intros Hn. split; [apply Z.div_pos; lia|].
  apply Z.div_lt_upper_bound; [lia|].
  rewrite Nat2Z.inj_succ, Z.pow_succ_r in Hn by lia. lia.
Qed.

Lemma digits_all_digits (fuel : nat) (n : Z) :
  0 <= n -> Spec.all_digits (Sql.digits fuel n) = true.
Proof.
  revert n. induction fuel as [|f IH]; intros n Hn; [reflexivity|].
  rewrite digits_S. destruct (Z.ltb_spec n 10) as [Hlt|Hge].
  - cbn [Spec.all_digits].
    rewrite (proj1 (digit_char_cases n (conj Hn Hlt))). reflexivity.
  - rewrite all_digits_append, IH by (apply Z.div_pos; lia).
    cbn [Spec.all_digits].
    rewrite (proj1 (digit_char_cases (n mod 10)
                      (Z.mod_pos_bound n 10 eq_refl))).
    reflexivity.
Qed.

Lemma digits_length (fuel k : nat) (n : Z) :
  0 <= n < 10 ^ Z.of_nat (S k) ->
  (String.length (Sql.digits fuel n) <= S k)%nat.
Proof.
  revert k n. induction fuel as [|f IH]; intros k n Hn;
    [cbn [Sql.digits String.length]; lia|].
  rewrite digits_S.
  destruct (Z.ltb_spec n 10) as [Hlt|Hge]; [cbn [String.length]; lia|].
  rewrite length_append. cbn [String.length].
  destruct k as [|k].
  - change (10 ^ Z.of_nat 1) with 10 in Hn. lia.
  - specialize (IH k (n / 10) (div10_bound n (S k) Hn)). lia.
Qed.

Lemma digits_value (fuel : nat) (n : Z) :
  0 <= n < 10 ^ Z.of_nat fuel ->
  Spec.decimal_value (Sql.digits fuel n) = n.
Proof.
  unfold Spec.decimal_value.
  revert n. induction fuel as [|f IH]; intros n Hn.
  - change (10 ^ Z.of_nat 0) with 1 in Hn. assert (n = 0) by lia.
    subst n. reflexivity.
  - rewrite digits_S. destruct (Z.ltb_spec n 10) as [Hlt|Hge].
    + cbn [Spec.decimal_value_from].
      rewrite (proj2 (digit_char_cases n (conj (proj1 Hn) Hlt))). lia.
    + rewrite decimal_value_append, IH by (now apply div10_bound).
      cbn [Spec.decimal_value_from].
      rewrite (proj2 (digit_char_cases (n mod 10)
                        (Z.mod_pos_bound n 10 eq_refl))).
      pose proof (Z.div_mod n 10). lia.
Qed.

(** The fuel of [to_text] is enough for all the digits. *)
Lemma to_text_value (n : Z) :
  0 <= n -> Spec.decimal_value (Sql.to_text n) = n.
Proof.
  intros Hn. unfold Sql.to_text. apply digits_value.
  split; [exact Hn|].
  destruct (Z.eq_dec n 0) as [->|Hnz]; [reflexivity|].
  pose proof (Z.log2_spec n ltac:(lia)) as [_ Hup].
  pose proof (Z.log2_nonneg n) as Hlg.
  eapply Z.lt_le_trans; [exact Hup|].
  rewrite Nat2Z.inj_succ, Z2Nat.id by exact Hlg.
  apply Z.pow_le_mono_l. lia.
Qed.

Lemma replicate_length (k : nat) (c : ascii) :
  String.length (Sql.replicate k c) = k.
Proof. induction k as [|k IH]; simpl; [reflexivity | now rewrite IH]. Qed.

Lemma replicate_zero_digits (k : nat) :
  Spec.all_digits (Sql.replicate k "0") = true.
Proof. induction k as [|k IH]; [reflexivity | exact IH]. Qed.

Lemma replicate_zero_value (k : nat) (s : string) :
  Spec.decimal_value (Sql.replicate k "0" ++ s) = Spec.decimal_value s.
Proof. induction k as [|k IH]; [reflexivity | exact IH]. Qed.

(** Padding a text of at most [len] digits: [len] digits that denote the
    same number. *)
Lemma LPAD_zero (s : string) (len : nat) :
  (String.length s <= len)%nat -> Spec.all_digits s = true ->
  String.length (Sql.LPAD s len "0") = len
  /\ Spec.all_digits (Sql.LPAD s len "0") = true
  /\ Spec.decimal_value (Sql.LPAD s len "0") = Spec.decimal_value s.
Proof.
  intros Hlen Hdig. unfold Sql.LPAD.
  destruct (Nat.leb_spec len (String.length s)) as [Hle|Hgt].
  - assert (E : len = String.length s) by lia. subst len.
    assert (Hsub : forall t, substring 0 (String.length t) t = t).
    { induction t as [|c t IH]; simpl; [reflexivity | now rewrite IH]. }
    rewrite Hsub. auto.
  - rewrite length_append, replicate_length, all_digits_append,
      replicate_zero_digits, replicate_zero_value, Hdig.
    repeat split. lia.
Qed.

(** Rounding to the nearest is off by at most half a unit. *)
Lemma round_shift_bounds (m k : Z) :
  0 <= m -> 0 <= k ->
  0 <= Sql.round_shift m k
  /\ 2 * (Sql.round_shift m k * 2 ^ k) <= 2 * m + 2 ^ k.
Proof.
  intros Hm Hk. unfold Sql.round_shift.
  destruct (Z.leb_spec k 0) as [Hk0|Hk1].
  - assert (k = 0) by lia. subst k. change (2 ^ 0) with 1. lia.
  - assert (Hpow : 0 < 2 ^ (k - 1)) by (apply Z.pow_pos_nonneg; lia).
    assert (Hdbl : 2 ^ k = 2 * 2 ^ (k - 1)).
    { replace k with (Z.succ (k - 1)) at 1 by lia.
      rewrite Z.pow_succ_r by lia. reflexivity. }
    pose proof (Z.div_mod m (2 ^ k) ltac:(lia)) as Hdm.
    pose proof (Z.mod_pos_bound m (2 ^ k) ltac:(lia)) as Hr.
    assert (Hq : 0 <= m / 2 ^ k) by (apply Z.div_pos; lia).
    cbv zeta.
    destruct (Z.ltb_spec (m mod 2 ^ k) (2 ^ (k - 1))) as [H1|H1];
      [split; [exact Hq | nia]|].
    destruct (Z.ltb_spec (2 ^ (k - 1)) (m mod 2 ^ k)) as [H2|H2];
      [split; [lia | nia]|].
    destruct (Z.even (m / 2 ^ k)); split; try lia; nia.
Qed.

(** The product of a double below 1 with 1000000, rounded to a double, is
    still below 1000000, and its floor is in [0, 1000000). *)
Lemma FLOOR_range (r : Sql.double) :
  Store.unit_double r ->
  0 <= Sql.FLOOR (Store.times_1000000 r) < 1000000.
Proof.
  intros ((Hm0 & Hm53) & (He0 & He1) & Hlt).
  unfold Store.times_1000000, Sql.mul, Sql.nearest_double, Sql.of_integer,
    Sql.FLOOR.
  cbn [Sql.mant Sql.expo]. rewrite Z.add_0_r.
  set (P := Sql.mant r * 1000000). set (e := Sql.expo r).
  fold e in He0, He1, Hlt.
  assert (HP0 : 0 <= P) by (unfold P; lia).
  rewrite (Z.abs_eq P HP0).
  set (k := Z.max 0 (Z.max (Z.log2 P - 52) (- 1074 - e))).
  assert (Hk0 : 0 <= k) by (unfold k; lia).
  assert (Hk20 : k <= 20).
  { unfold k. assert (Z.log2 P < 73); [|lia].
    destruct (Z.eq_dec P 0) as [->|HPnz]; [cbn; lia|].
    apply Z.log2_lt_pow2; [lia|].
    unfold P. change (2 ^ 73) with (2 ^ 53 * 1048576). nia. }
  destruct (round_shift_bounds P k HP0 Hk0) as [Hq0 Hq].
  set (q := Sql.round_shift P k) in *.
  assert (Hpk : 0 < 2 ^ k) by (apply Z.pow_pos_nonneg; lia).
  assert (Hpa : 0 < 2 ^ (- e)) by (apply Z.pow_pos_nonneg; lia).
  assert (Hk2 : 2 ^ k <= 2 ^ 20) by (apply Z.pow_le_mono_r; lia).
  change (2 ^ 20) with 1048576 in Hk2.
  (* the key bound *)
  assert (Hkey : q * 2 ^ k < 1000000 * 2 ^ (- e)).
  { unfold P in Hq. nia. }
  destruct (Z.leb_spec 0 (e + k)) as [Hpos|Hneg].
  - split; [apply Z.mul_nonneg_nonneg; [exact Hq0|apply Z.pow_nonneg; lia]|].
    assert (Hsplit : 2 ^ k = 2 ^ (e + k) * 2 ^ (- e)).
    { rewrite <- Z.pow_add_r by lia. f_equal. lia. }
    rewrite Hsplit in Hkey.
    assert (Hp : 0 < 2 ^ (e + k)) by (apply Z.pow_pos_nonneg; lia).
    nia.
  - assert (Hp : 0 < 2 ^ (- (e + k))) by (apply Z.pow_pos_nonneg; lia).
    split; [apply Z.div_pos; lia|].
    apply Z.div_lt_upper_bound; [exact Hp|].
    assert (Hsplit : 2 ^ (- e) = 2 ^ (- (e + k)) * 2 ^ k).
    { rewrite <- Z.pow_add_r by lia. f_equal. lia. }
    rewrite Hsplit in Hkey. nia.
Qed.

(** The candidate of one iteration: six digits, the zero-padded decimal
    text of [FLOOR(RANDOM() * 1000000)], a value in [0, 1000000). *)
Lemma new_pin_of_six_digits (r : Sql.double) :
  Store.unit_double r ->
  Spec.is_pin (Store.new_pin_of r) = true
  /\ Spec.decimal_value (Store.new_pin_of r)
     = Sql.FLOOR (Store.times_1000000 r)
  /\ 0 <= Sql.FLOOR (Store.times_1000000 r) < 1000000.
Proof.
  intros Hu. pose proof (FLOOR_range r Hu) as Hr.
  unfold Store.new_pin_of, Spec.is_pin.
  destruct (LPAD_zero (Sql.to_text (Sql.FLOOR (Store.times_1000000 r))) 6)
    as (Hlen & Hdig & Hval).
  - apply (digits_length _ 5). exact Hr.
  - apply digits_all_digits. lia.
  - rewrite Hlen, Hdig, Hval, to_text_value by lia. auto.
Qed.

Lemma pin_taken_false (rows : list Profile.t) (pin : string) :
  Store.pin_taken rows pin = false ->
  forall p, In p rows -> Profile.private_pin p <> pin.
Proof.
  intros H p Hp E. unfold Store.pin_taken in H.
  assert (Ht : existsb (fun q => String.eqb (Profile.private_pin q) pin) rows
               = true).
  { apply existsb_exists. exists p. split; [exact Hp|].
    now apply String.eqb_eq. }
  congruence.
Qed.

(** A value returned by the loop is the candidate of some iteration, and
    no row read carries it. *)
Lemma generate_unique_pin_from_some (fuel : nat) (RANDOM : nat -> Sql.double)
      (i : nat) (rows : list Profile.t) (pin : string) :
  Store.generate_unique_pin_from fuel RANDOM i rows = Some pin ->
  Store.pin_taken rows pin = false
  /\ exists k, pin = Store.new_pin_of (RANDOM k).
Proof.
  revert i. induction fuel as [|f IH]; intros i; [discriminate|].
  cbn [Store.generate_unique_pin_from].
  destruct (Store.pin_taken rows (Store.new_pin_of (RANDOM i))) eqn:Ht;
    cbn [negb].
  - apply IH.
  - intros [= <-]. split; [exact Ht | now exists i].
Qed.

(** What the function is shown of [profiles]: every row under a session,
    no row without one. *)
Lemma visible_to_profiles (caller : option uuid) (l : list Profile.t) :
  Store.visible_to Store.profiles_policies caller l
  = match caller with Some _ => l | None => [] end.
Proof.
  unfold Store.visible_to. destruct caller as [uid|].
  - exact (visible_profiles uid l).
  - induction l as [|p t IH]; [reflexivity | exact IH].
Qed.

(** X17: a string returned by the PIN allocator is always six ASCII
    digits, and it is the PIN of no profile that the caller may read; that
    is every existing profile when the function is called under a session,
    and none when it is called without one. *)
Theorem generate_unique_pin_six_digits_unused :
  forall (caller : option uuid) (db : Store.Db) (fuel : nat)
         (RANDOM : nat -> Sql.double) (pin : string),
    Store.in_unit_interval RANDOM ->
    Store.rpc_generate_unique_pin caller db fuel RANDOM = Some pin ->
    Spec.is_pin pin = true
    /\ (forall p,
          In p (Store.visible_to Store.profiles_policies caller
                  (Store.profiles db)) ->
          Profile.private_pin p <> pin)
    /\ (forall uid, caller = Some uid ->
          forall p, In p (Store.profiles db) -> Profile.private_pin p <> pin).
Proof.
  intros caller db fuel RANDOM pin Hrand Hret.
  unfold Store.rpc_generate_unique_pin, Store.rpc_generate_unique_pin_under,
    Store.generate_unique_pin in Hret.
  apply generate_unique_pin_from_some in Hret.
  destruct Hret as (Hfree & k & ->). split; [|split].
  - exact (proj1 (new_pin_of_six_digits (RANDOM k) (Hrand k))).
  - now apply pin_taken_false.
  - intros uid -> p Hp. rewrite visible_to_profiles in Hfree.
    exact (pin_taken_false _ _ Hfree p Hp).
Qed.

Lemma RANDOM_two_collisions_ok :
  Store.in_unit_interval Example.RANDOM_two_collisions.
Proof.
  intros i. destruct i as [|[|i]]; unfold Store.unit_double; cbn; lia.
Defined.

Lemma generate_unique_pin_six_digits_unused_witness :
  Store.in_unit_interval Example.RANDOM_two_collisions
  /\ Store.rpc_generate_unique_pin (Some Example.alice) Example.db0 5
       Example.RANDOM_two_collisions = Some "000042"
  /\ Spec.is_pin "000042" = true
  /\ (forall p, In p (Store.profiles Example.db0) ->
                Profile.private_pin p <> "000042").
Proof.
  assert (Hret : Store.rpc_generate_unique_pin (Some Example.alice)
                   Example.db0 5 Example.RANDOM_two_collisions
                 = Some "000042")
    by (vm_compute; reflexivity).
  split; [exact RANDOM_two_collisions_ok|]. split; [exact Hret|].
  destruct (generate_unique_pin_six_digits_unused (Some Example.alice)
              Example.db0 5 Example.RANDOM_two_collisions "000042"
              RANDOM_two_collisions_ok Hret) as (Hpin & _ & Hun).
  split; [exact Hpin | exact (Hun Example.alice eq_refl)].
Defined.

(** C5 fails without a session: the function runs with the rights of its
    caller, so, called as [signUp] calls it when the identity provider has
    returned no session, it is shown no profile, finds no collision and
    returns its first candidate, "111111", which is Alice's PIN. *)
Theorem generate_unique_pin_without_session_returns_used_pin :
  Store.in_unit_interval Example.RANDOM_two_collisions
  /\ Store.rpc_generate_unique_pin
       (useAuthStore.caller_after Example.erin false)
       Example.db0 5 Example.RANDOM_two_collisions = Some "111111"
  /\ useAuthStore.generatePin_under Store.profiles_policies
       (useAuthStore.caller_after Example.erin false)
       (Store.add_account Example.db0 Example.erin) 5
       Example.RANDOM_two_collisions = Resolved "111111"
  /\ In Example.alice_profile (Store.profiles Example.db0)
  /\ Profile.private_pin Example.alice_profile = "111111".
Proof.
  split; [exact RANDOM_two_collisions_ok|].
  split; [vm_compute; reflexivity|]. split; [vm_compute; reflexivity|].
  split; [now left | reflexivity].
Qed.

(** The loop started at draw [i] returns at the first draw whose candidate
    is free, after one iteration per draw, and not before. *)
Lemma generate_unique_pin_from_first_free (RANDOM : nat -> Sql.double)
      (rows : list Profile.t) (fuel i k : nat) :
  (forall j, (j < k)%nat ->
     Store.pin_taken rows (Store.new_pin_of (RANDOM (i + j)%nat)) = true) ->
  Store.pin_taken rows (Store.new_pin_of (RANDOM (i + k)%nat)) = false ->
  Store.generate_unique_pin_from fuel RANDOM i rows
  = if (k <? fuel)%nat then Some (Store.new_pin_of (RANDOM (i + k)%nat))
    else None.
Proof.
  revert i k. induction fuel as [|f IH]; intros i k Hbefore Hfree;
    [reflexivity|].
  cbn [Store.generate_unique_pin_from]. destruct k as [|k].
  - rewrite Nat.add_0_r in Hfree. rewrite Hfree. cbn.
    now rewrite Nat.add_0_r.
  - pose proof (Hbefore 0%nat ltac:(lia)) as H0.
    rewrite Nat.add_0_r in H0. rewrite H0. cbn [negb].
    rewrite (IH (S i) k).
    + replace (S i + k)%nat with (i + S k)%nat by lia. reflexivity.
    + intros j Hj. replace (S i + j)%nat with (i + S j)%nat by lia.
      apply Hbefore. lia.
    + replace (S i + k)%nat with (i + S k)%nat by lia. exact Hfree.
Qed.





(** No cap, made explicit: for every number [n] of iterations there are
    draws on which the loop is still running after [n] iterations and
    returns at the next one. *)
Lemma generate_unique_pin_no_cap (n : nat) :
  Store.in_unit_interval (Example.RANDOM_zero_until n)
  /\ Store.generate_unique_pin n (Example.RANDOM_zero_until n)
       (Store.profiles Example.db_zero) = None
  /\ Store.generate_unique_pin (S n) (Example.RANDOM_zero_until n)
       (Store.profiles Example.db_zero) = Some "500000".
Proof.
  assert (Hbefore : forall j, (j < n)%nat ->
    Store.pin_taken (Store.profiles Example.db_zero)
      (Store.new_pin_of (Example.RANDOM_zero_until n (0 + j)%nat)) = true).
  { intros j Hj. unfold Example.RANDOM_zero_until. cbn [Nat.add].
    apply Nat.ltb_lt in Hj. rewrite Hj. vm_compute; reflexivity. }
  assert (Hfree :
    Store.pin_taken (Store.profiles Example.db_zero)
      (Store.new_pin_of (Example.RANDOM_zero_until n (0 + n)%nat)) = false).
  { unfold Example.RANDOM_zero_until. cbn [Nat.add].
    rewrite Nat.ltb_irrefl. vm_compute; reflexivity. }
  split; [|split].
  - intros i. unfold Example.RANDOM_zero_until.
    destruct (i <? n)%nat; unfold Store.unit_double; cbn; lia.
  - unfold Store.generate_unique_pin.
    rewrite (generate_unique_pin_from_first_free _ _ n 0 n Hbefore Hfree).
    now rewrite Nat.ltb_irrefl.
  - unfold Store.generate_unique_pin.
    rewrite (generate_unique_pin_from_first_free _ _ (S n) 0 n Hbefore Hfree).
    assert (Hlt : (n <? S n)%nat = true) by (apply Nat.ltb_lt; lia).
    rewrite Hlt. unfold Example.RANDOM_zero_until. cbn [Nat.add].
    rewrite Nat.ltb_irrefl. vm_compute; reflexivity.
Qed.

(** ** Realtime delivery *)

Lemma uuid_shape_length (s : string) (pos : nat) :
  Sql.uuid_shape pos s = true -> (pos + String.length s = 36)%nat.
Proof.
  revert pos. induction s as [|c s IH]; intros pos H.
  - cbn in H. apply Nat.eqb_eq in H. cbn. lia.
  - cbn [Sql.uuid_shape] in H. apply andb_prop in H. destruct H as [_ H].
    apply IH in H. cbn [String.length]. lia.
Qed.

Lemma is_uuid_length (s : string) :
  Sql.is_uuid s = true -> String.length s = 36%nat.
Proof. intros H. apply uuid_shape_length in H. lia. Qed.

(** The filter that [subscribeToChats] registers is, for the change feed,
    the single condition "sender_id equals [U,receiver_id=eq.U]". *)
Lemma subscribeToChats_filter (userId : string) :
  Realtime.parse_filter
    (Realtime.filter (useChatStore.subscribeToChats userId))
  = Some ("sender_id", "eq", userId ++ ",receiver_id=eq." ++ userId).
Proof. reflexivity. Qed.

Lemma subscribeToChats_delivers (uid : uuid) (userId : string) (m : Chat.t) :
  Realtime.delivers uid (useChatStore.subscribeToChats userId) m
  = Store.permitted (Store.for_select Store.chats_policies) uid m
    && String.eqb (Chat.sender_id m) (userId ++ ",receiver_id=eq." ++ userId).
Proof.
  unfold Realtime.delivers, Realtime.filter_accepts.
  rewrite subscribeToChats_filter. reflexivity.
Qed.

(** What the code does where C3 expects a notification: with identities
    in [uuid] form, the subscription of [subscribeToChats] passes no
    inserted message on, neither one sent by the subscriber nor one sent to
    the subscriber; the store of the client stays as it was. *)
Theorem subscribeToChats_delivers_nothing :
  forall (a : uuid) (st : useChatStore.State) (m : Chat.t),
    Sql.is_uuid a = true -> Sql.is_uuid (Chat.sender_id m) = true ->
    Realtime.delivers a (useChatStore.subscribeToChats a) m = false
    /\ useChatStore.on_insert a (useChatStore.subscribeToChats a) st m = st.
Proof.
  intros a st m Ha Hs.
  assert (Hd : Realtime.delivers a (useChatStore.subscribeToChats a) m
               = false).
  { rewrite subscribeToChats_delivers.
    destruct (String.eqb_spec (Chat.sender_id m)
                (a ++ ",receiver_id=eq." ++ a)) as [E|E];
      [|apply andb_false_r].
    exfalso. apply is_uuid_length in Ha, Hs.
    rewrite E, !length_append, Ha in Hs. cbn in Hs. lia. }
  split; [exact Hd|].
  unfold useChatStore.on_insert. now rewrite Hd.
Qed.

Lemma subscribeToChats_delivers_nothing_witness :
  Spec.involves Example.alice Example.M1 = true
  /\ Spec.involves Example.alice Example.M2 = true
  /\ useChatStore.on_insert Example.alice
       (useChatStore.subscribeToChats Example.alice)
       useChatStore.initial Example.M1 = useChatStore.initial
  /\ useChatStore.on_insert Example.alice
       (useChatStore.subscribeToChats Example.alice)
       useChatStore.initial Example.M2 = useChatStore.initial.
Proof.
  split; [reflexivity|]. split; [reflexivity|]. split.
  - exact (proj2 (subscribeToChats_delivers_nothing Example.alice
                    useChatStore.initial Example.M1 eq_refl eq_refl)).
  - exact (proj2 (subscribeToChats_delivers_nothing Example.alice
                    useChatStore.initial Example.M2 eq_refl eq_refl)).
Defined.

(** Read as a list of conditions that must all hold, the same filter asks
    for sender and receiver to be the subscriber at once: it refuses both
    messages as well. *)
Lemma subscribeToChats_filter_as_conjunction :
  Realtime.filter_accepts_all
    (Realtime.filter (useChatStore.subscribeToChats Example.alice))
    Example.M1 = false
  /\ Realtime.filter_accepts_all
       (Realtime.filter (useChatStore.subscribeToChats Example.alice))
       Example.M2 = false
  /\ Realtime.filter_accepts_all
       (Realtime.filter (useChatStore.subscribeToChats Example.alice))
       (Example.msg Example.id4 Example.alice Example.alice 7) = true.
Proof. repeat split; vm_compute; reflexivity. Qed.

(** A message that is delivered is appended to the end of the list. *)
Lemma on_payload_appends (st : useChatStore.State) (m : Chat.t) :
  useChatStore.chats (useChatStore.on_payload st m)
  = (useChatStore.chats st ++ [m])%list.
Proof. reflexivity. Qed.

(** ** Row-level rules of [profiles], and sign-up *)

(** What the policies of [profiles] give an authenticated caller: every row
    can be read; a row can be updated exactly by the caller whose identity
    is its [id]; no INSERT policy exists, so every INSERT is refused, also
    the one of a caller's own row that [signUp] issues (C7 expects the
    owner to be able to insert it). *)
Theorem profiles_read_all_update_own_insert_none :
  forall (uid : uuid) (db : Store.Db) (row : Profile.t)
         (n : Store.NewProfile) (now : timestamptz),
    Store.permitted (Store.for_select Store.profiles_policies) uid row = true
    /\ (Store.permitted (Store.for_update Store.profiles_policies) uid row
        = true <-> uid = Profile.id row)
    /\ Store.permitted (Store.for_insert Store.profiles_policies) uid n
       = false
    /\ Store.insert_profiles uid db n now
       = inr (Store.RlsViolation "profiles").
Proof.
  intros uid db row n now. split; [reflexivity|]. split; [|split].
  - cbn. rewrite orb_false_r. apply String.eqb_eq.
  - reflexivity.
  - reflexivity.
Qed.

(** The owner's own row is refused: Erin, who has an account and no
    profile yet, inserts the row whose [id] is her identity. *)
Lemma insert_profiles_own_row_refused :
  Store.has_account (Store.add_account Example.db0 Example.erin) Example.erin
  = true
  /\ Store.insert_profiles Example.erin
       (Store.add_account Example.db0 Example.erin)
       {| Store.np_id := Some Example.erin;
          Store.np_private_pin := Some "000042";
          Store.np_display_name := Some "Erin" |} 9
     = inr (Store.RlsViolation "profiles").
Proof. split; reflexivity. Qed.

(** An accepted INSERT into [profiles], under any policies: it appends
    the one row it returns, made of the values given; its [id] is an
    account's and new among the profiles, and its PIN is carried by no
    other profile. *)
Lemma insert_profiles_accepted
      (ps : Store.Policies Profile.t Store.NewProfile)
      (caller : option uuid) (db db2 : Store.Db)
      (n : Store.NewProfile) (now : timestamptz) (row : Profile.t) :
  Store.insert_profiles_under ps caller db n now = inl (db2, row) ->
  exists i pin name,
    Store.np_id n = Some i /\ Store.np_private_pin n = Some pin
    /\ Store.np_display_name n = Some name
    /\ row = Profile.mk i pin name None now now
    /\ db2 = Store.set_profiles db (Store.profiles db ++ [row])
    /\ Store.has_account db i = true
    /\ Store.has_profile db i = false
    /\ Store.pin_taken (Store.profiles db) pin = false.
Proof.
  unfold Store.insert_profiles_under.
  destruct (Store.permitted_to _ caller n); cbn; [|discriminate].
  destruct (Store.np_id n) as [i|]; cbn; [|discriminate].
  destruct (Store.np_private_pin n) as [pin|]; cbn; [|discriminate].
  destruct (Store.np_display_name n) as [name|]; cbn; [|discriminate].
  destruct (Store.has_profile db i) eqn:Hp; cbn; [discriminate|].
  destruct (Store.pin_taken (Store.profiles db) pin) eqn:Ht; cbn;
    [discriminate|].
  destruct (Store.has_account db i) eqn:Ha; cbn; [|discriminate].
  intros [= <- <-]. exists i, pin, name. repeat split; trivial.
Qed.

Lemma insert_profiles_keeps_pins_unique
      (ps : Store.Policies Profile.t Store.NewProfile)
      (caller : option uuid) (db db2 : Store.Db)
      (n : Store.NewProfile) (now : timestamptz) (row : Profile.t) :
  Store.pins_unique db ->
  Store.insert_profiles_under ps caller db n now = inl (db2, row) ->
  Store.pins_unique db2.
Proof.
  intros Hnd Hins. apply insert_profiles_accepted in Hins.
  destruct Hins as (i & pin & name & _ & _ & _ & -> & -> & _ & _ & Hfree).
  unfold Store.pins_unique. cbn. rewrite map_app. cbn.
  eapply Permutation_NoDup; [apply Permutation_cons_append|].
  constructor; [|exact Hnd].
  intros Hin. apply in_map_iff in Hin. destruct Hin as (p & Hp & Hin).
  exact (pin_taken_false _ _ Hfree p Hin Hp).
Qed.

(** C9, as the code has it, for [signUp] against a store with any policies
    [ps] for [profiles]: when the identity provider answers with an error
    or with no user, nothing is stored; when it answers with a user,
    the account exists from then on, whatever follows; the profile row is
    inserted by a later request with the PIN that the allocator returned.
    When that request is accepted, exactly one row, with the id of the
    account, that PIN and the display name, is appended and [signUp]
    fulfils; when it is refused [signUp] throws the error of the store,
    and while the allocator has not returned [signUp] is pending: in both
    cases the account stays without the profile.  A profile row that a
    sign-up adds has the id of an account. *)
Theorem signUp_account_then_profile :
  forall (ps : Store.Policies Profile.t Store.NewProfile)
         (db : Store.Db) (st : useAuthStore.State) (user_id : uuid)
         (session : bool) (displayName : string) (fuel : nat)
         (RANDOM : nat -> Sql.double) (now : timestamptz),
    let caller := useAuthStore.caller_after user_id session in
    let db1 := Store.add_account db user_id in
    let r := useAuthStore.signUp_under ps db st
               (useAuthStore.authData (Some user_id) session) displayName
               fuel RANDOM now in
    ((forall msg,
         useAuthStore.signUp_under ps db st (useAuthStore.authError msg)
           displayName fuel RANDOM now
         = (db, st, Thrown (AuthError msg)))
     /\ useAuthStore.signUp_under ps db st
          (useAuthStore.authData None session) displayName fuel RANDOM now
        = (db, st, Resolved tt))
    /\ (Store.auth_users (fst (fst r)) = user_id :: Store.auth_users db
        /\ Store.connections (fst (fst r)) = Store.connections db
        /\ Store.chats (fst (fst r)) = Store.chats db)
    /\ (forall pin db2 row,
          Store.rpc_generate_unique_pin_under ps caller db1 fuel RANDOM
          = Some pin ->
          Store.insert_profiles_under ps caller db1
            (useAuthStore.signUp_values user_id displayName pin) now
          = inl (db2, row) ->
          r = (db2, {| useAuthStore.user := Some row;
                       useAuthStore.loading := useAuthStore.loading st |},
               Resolved tt)
          /\ row = Profile.mk user_id pin displayName None now now
          /\ Store.profiles db2 = (Store.profiles db ++ [row])%list
          /\ Store.has_account db2 user_id = true)
    /\ (forall pin e,
          Store.rpc_generate_unique_pin_under ps caller db1 fuel RANDOM
          = Some pin ->
          Store.insert_profiles_under ps caller db1
            (useAuthStore.signUp_values user_id displayName pin) now
          = inr e ->
          r = (db1, st, Thrown (StoreError e))
          /\ Store.profiles db1 = Store.profiles db)
    /\ (Store.rpc_generate_unique_pin_under ps caller db1 fuel RANDOM = None ->
        r = (db1, st, Pending) /\ Store.profiles db1 = Store.profiles db)
    /\ (forall p,
          In p (Store.profiles (fst (fst r))) ->
          In p (Store.profiles db)
          \/ (Profile.id p = user_id
              /\ Store.has_account (fst (fst r)) user_id = true)).
Proof.
  intros ps db st user_id session displayName fuel RANDOM now caller db1 r.
  split; [split; [intros msg|]; reflexivity|].
  assert (Hacc : Store.has_account db1 user_id = true).
  { unfold db1, Store.has_account. cbn. now rewrite String.eqb_refl. }
  unfold r, useAuthStore.signUp_under, useAuthStore.generatePin_under.
  fold caller. fold db1.
  destruct (Store.rpc_generate_unique_pin_under ps caller db1 fuel RANDOM)
    as [pin|] eqn:Hpin.
  - destruct (Store.insert_profiles_under ps caller db1
                (useAuthStore.signUp_values user_id displayName pin) now)
      as [[db2 row]|e] eqn:Hins.
    + pose proof Hins as Hacc2. apply insert_profiles_accepted in Hacc2.
      destruct Hacc2 as (i & pin' & name & Hi & Hp & Hn & Hrow & Hdb2 & _).
      cbn in Hi, Hp, Hn. injection Hi as <-. injection Hp as <-.
      injection Hn as <-.
      split; [subst db2; cbn; repeat split|]. split; [|split; [|split]].
      * intros pin0 db0 row0 [= <-] Heq. rewrite Hins in Heq.
        injection Heq as <- <-.
        split; [reflexivity|]. split; [exact Hrow|].
        subst db2. split; [reflexivity | exact Hacc].
      * intros pin0 e [= <-] Heq. rewrite Hins in Heq. discriminate.
      * discriminate.
      * intros p Hp. subst db2. cbn in Hp. apply in_app_or in Hp.
        destruct Hp as [Hp|[<-|[]]]; [now left|].
        right. rewrite Hrow. split; [reflexivity | exact Hacc].
    + split; [cbn; repeat split|]. split; [|split; [|split]].
      * intros pin0 db0 row0 [= <-] Heq. rewrite Hins in Heq. discriminate.
      * intros pin0 e0 [= <-] Heq. rewrite Hins in Heq.
        injection Heq as <-. split; reflexivity.
      * discriminate.
      * intros p Hp. now left.
  - split; [cbn; repeat split|]. split; [|split; [|split]].
    + discriminate.
    + discriminate.
    + intros _. split; reflexivity.
    + intros p Hp. now left.
Qed.

(** Both halves at work.  Against a store whose [profiles] has the INSERT
    policy of its sibling tables, Erin's sign-up with a session appends her
    profile with the PIN "000042"; against the store of the migration the
    same sign-up is refused and leaves the account alone. *)
Lemma signUp_account_then_profile_witness :
  useAuthStore.signUp_under Example.profiles_policies_with_insert
    Example.db0 useAuthStore.initial
    (useAuthStore.authData (Some Example.erin) true) "Erin" 5
    Example.RANDOM_two_collisions 9
  = (Store.set_profiles (Store.add_account Example.db0 Example.erin)
       (Store.profiles Example.db0
          ++ [Profile.mk Example.erin "000042" "Erin" None 9 9]),
     {| useAuthStore.user :=
          Some (Profile.mk Example.erin "000042" "Erin" None 9 9);
        useAuthStore.loading := true |},
     Resolved tt)
  /\ useAuthStore.signUp Example.db0 useAuthStore.initial
       (useAuthStore.authData (Some Example.erin) true) "Erin" 5
       Example.RANDOM_two_collisions 9
     = (Store.add_account Example.db0 Example.erin, useAuthStore.initial,
        Thrown (StoreError (Store.RlsViolation "profiles"))).
Proof.
  split.
  - apply (proj1 (proj1 (proj2 (proj2 (signUp_account_then_profile
             Example.profiles_policies_with_insert Example.db0
             useAuthStore.initial Example.erin true "Erin" 5
             Example.RANDOM_two_collisions 9)))
             "000042" _ _ ltac:(vm_compute; reflexivity)
             ltac:(vm_compute; reflexivity))).
  - apply (proj1 (proj1 (proj2 (proj2 (proj2 (signUp_account_then_profile
             Store.profiles_policies Example.db0
             useAuthStore.initial Example.erin true "Erin" 5
             Example.RANDOM_two_collisions 9))))
             "000042" _ ltac:(vm_compute; reflexivity)
             ltac:(vm_compute; reflexivity))).
Defined.

(** C9 as stated fails: sign-up is not atomic.  The identity provider
    creates Erin's account and the allocator returns a free PIN, but the
    INSERT of her profile is refused: [signUp] throws and the account stays
    without a profile.  Likewise, while the allocator is still looping (here
    after 100 collisions) the account already exists and the profile does
    not. *)
Lemma signUp_leaves_account_without_profile :
  (let r := useAuthStore.signUp Example.db0 useAuthStore.initial
              (useAuthStore.authData (Some Example.erin) true) "Erin" 5
              Example.RANDOM_two_collisions 9 in
   Store.has_account (fst (fst r)) Example.erin = true
   /\ Store.has_profile (fst (fst r)) Example.erin = false
   /\ snd r = Thrown (StoreError (Store.RlsViolation "profiles")))
  /\ (let r := useAuthStore.signUp Example.db_zero useAuthStore.initial
                 (useAuthStore.authData (Some Example.erin) true) "Erin" 100
                 Example.RANDOM_zero 9 in
      Store.has_account (fst (fst r)) Example.erin = true
      /\ Store.has_profile (fst (fst r)) Example.erin = false
      /\ snd r = Pending).
Proof. repeat split; vm_compute; reflexivity. Qed.

(** ** Sample evaluations *)

Example to_text_samples :
  Sql.to_text 0 = "0" /\ Sql.to_text 42 = "42"
  /\ Sql.to_text 100000 = "100000" /\ Sql.to_text 999999 = "999999".
Proof. repeat split; vm_compute; reflexivity. Qed.

(** The PIN of 0, of 1/4, of the largest double below 1 (the product is
    rounded to a double still below 1000000), of a tiny double, and of the
    double whose exact product is just below 524292 and whose product in
    double precision is 524292. *)
Example new_pin_of_samples :
  Store.new_pin_of (Sql.mkDouble 0 0) = "000000"
  /\ Store.new_pin_of (Sql.mkDouble 1 (- 2)) = "250000"
  /\ Store.new_pin_of (Sql.mkDouble (2 ^ 53 - 1) (- 53)) = "999999"
  /\ Store.new_pin_of (Sql.mkDouble 1 (- 1074)) = "000000"
  /\ Store.new_pin_of Example.r524292 = "524292"
  /\ (Sql.mant Example.r524292 * 1000000) / 2 ^ 52 = 524291.
Proof. repeat split; vm_compute; reflexivity. Qed.

Example LPAD_samples :
  Sql.LPAD "42" 6 "0" = "000042" /\ Sql.LPAD "1234567" 6 "0" = "123456".
Proof. repeat split; vm_compute; reflexivity. Qed.

Example is_uuid_samples :
  Sql.is_uuid Example.alice = true
  /\ Sql.is_uuid (Example.alice ++ ",receiver_id=eq." ++ Example.alice)
     = false
  /\ Sql.is_uuid "111111" = false.
Proof. repeat split; vm_compute; reflexivity. Qed.

(** The three messages of the specification's example come back oldest
    first, for either party, and Carol's own fetch shows only her
    conversation. *)
Example fetchChats_samples :
  useChatStore.fetchChats_data (Store.scan_order Chat.t) Example.bob
    Example.db_chats Example.bob Example.alice
  = [Example.M1; Example.M3; Example.M2]
  /\ useChatStore.fetchChats_data (Store.reverse_scan_order Chat.t)
       Example.bob Example.db_chats Example.bob Example.alice
     = [Example.M1; Example.M3; Example.M2]
  /\ useChatStore.fetchChats_data (Store.scan_order Chat.t) Example.carol
       Example.db_chats Example.carol Example.bob = [Example.M4]
  /\ useChatStore.fetchChats_data (Store.scan_order Chat.t) Example.carol
       Example.db_chats Example.alice Example.bob = []
  /\ useChatStore.fetchChats_data (Store.reverse_scan_order Chat.t)
       Example.alice Example.db_ties Example.alice Example.bob
     = [Example.T2; Example.T1].
Proof. repeat split; vm_compute; reflexivity. Qed.

(** After Alice has added Bob, Bob is in Alice's contact list and Alice is
    not in Bob's. *)
Example fetchConnections_samples :
  let db1 := fst (ChatPage.handleAddContact Example.alice_profile Example.db0
                    (Example.typing "222222") Example.id1 5) in
  ChatPage.fetchConnections_data Example.alice_profile db1
  = [Some Example.bob_profile]
  /\ ChatPage.fetchConnections_data Example.bob_profile db1 = [].
Proof. split; vm_compute; reflexivity. Qed.

(** * Further properties of the code *)

(** ** Conversations *)

Lemma between_sym (a b : uuid) (m : Chat.t) :
  Spec.between a b m = Spec.between b a m.
Proof. unfold Spec.between. apply orb_comm. Qed.

(** X1: the two parties of a conversation fetch the same list, in the same
    order: [fetchChats(a, b)] called by [a] and [fetchChats(b, a)] called
    by [b] give the same rows when the store arranges ties alike for both;
    and however it arranges them for each, the two results hold the same
    rows and show the same creation times at the same places. *)
Theorem fetchChats_same_for_both_parties :
  forall (db : Store.Db) (a b : uuid),
    a <> b ->
    (forall tie : Store.TieOrder Chat.t,
        useChatStore.fetchChats_data tie a db a b
        = useChatStore.fetchChats_data tie b db b a)
    /\ (forall tie1 tie2 : Store.TieOrder Chat.t,
          Permutation (useChatStore.fetchChats_data tie1 a db a b)
                      (useChatStore.fetchChats_data tie2 b db b a)
          /\ map Chat.created_at (useChatStore.fetchChats_data tie1 a db a b)
             = map Chat.created_at
                 (useChatStore.fetchChats_data tie2 b db b a)).
Proof.
  intros db a b Hab.
  assert (E : filter (Spec.between a b) (Store.chats db)
              = filter (Spec.between b a) (Store.chats db)).
  { apply filter_ext. intros m. apply between_sym. }
  split.
  - intros tie.
    rewrite (fetchChats_rows tie a db a b Hab (or_introl eq_refl)).
    rewrite (fetchChats_rows tie b db b a (not_eq_sym Hab)
               (or_introl eq_refl)).
    now rewrite E.
  - intros tie1 tie2.
    rewrite (fetchChats_rows tie1 a db a b Hab (or_introl eq_refl)).
    rewrite (fetchChats_rows tie2 b db b a (not_eq_sym Hab)
               (or_introl eq_refl)).
    rewrite <- E.
    assert (P : Permutation
                  (Store.order_by tie1 Chat.created_at
                     (filter (Spec.between a b) (Store.chats db)))
                  (Store.order_by tie2 Chat.created_at
                     (filter (Spec.between a b) (Store.chats db)))).
    { rewrite <- (order_by_perm Chat.created_at tie1).
      apply order_by_perm. }
    split; [exact P|].
    apply sorted_perm_keys_eq;
      [exact P | apply order_by_sorted | apply order_by_sorted].
Qed.

Lemma fetchChats_same_for_both_parties_witness :
  Example.alice <> Example.bob
  /\ useChatStore.fetchChats_data (Store.scan_order Chat.t) Example.alice
       Example.db_chats Example.alice Example.bob
     = useChatStore.fetchChats_data (Store.scan_order Chat.t) Example.bob
         Example.db_chats Example.bob Example.alice.
Proof.
  assert (H : Example.alice <> Example.bob) by discriminate.
  split; [exact H|].
  exact (proj1 (fetchChats_same_for_both_parties Example.db_chats
                  Example.alice Example.bob H) (Store.scan_order Chat.t)).
Defined.

(** X2: when both arguments of [fetchChats] are the caller, the two [or]
    filters are one and the same, and the result is every message the
    caller takes part in, with whomever, each once and by ascending
    [created_at]: not only the messages of the caller to itself. *)
Theorem fetchChats_with_oneself :
  forall (tie : Store.TieOrder Chat.t) (db : Store.Db)
         (st : useChatStore.State) (a : uuid),
    let res := useChatStore.chats (useChatStore.fetchChats tie a db st a a) in
    Permutation (filter (Spec.involves a) (Store.chats db)) res
    /\ StronglySorted (Store.ascending Chat.created_at) res
    /\ (forall m, In m res <->
                  In m (Store.chats db)
                  /\ (Chat.sender_id m = a \/ Chat.receiver_id m = a)).
Proof.
  intros tie db st a. cbn zeta.
  assert (E : useChatStore.chats (useChatStore.fetchChats tie a db st a a)
              = Store.order_by tie Chat.created_at
                  (filter (Spec.involves a) (Store.chats db))).
  { cbn. unfold useChatStore.fetchChats_data, Store.select_chats,
      Store.visible. rewrite filter_filter. f_equal. apply filter_ext.
    intros m. unfold Spec.involves. cbn.
    rewrite (String.eqb_sym a (Chat.sender_id m)),
      (String.eqb_sym a (Chat.receiver_id m)).
    destruct (String.eqb (Chat.sender_id m) a),
      (String.eqb (Chat.receiver_id m) a); reflexivity. }
  rewrite E. split; [apply order_by_perm|]. split; [apply order_by_sorted|].
  intros m. rewrite in_order_by, filter_In. unfold Spec.involves.
  rewrite orb_true_iff, !String.eqb_eq. reflexivity.
Qed.

(** ** Row-level rules of [connections] and [chats] *)

(** X3: the policies of [connections]: whatever the filters of the
    request, a caller is shown only edges of which it is the source or the
    target; and an INSERT whose [user_id] is not the caller is refused, so
    nobody adds a contact on behalf of someone else. *)
Theorem connections_read_by_parties_insert_by_source :
  forall (uid : uuid) (db : Store.Db),
    (forall ps c,
        In c (Store.select_connections uid db ps) ->
        In c (Store.connections db)
        /\ (Connection.user_id c = uid \/ Connection.connected_user_id c = uid))
    /\ (forall n new_id now,
          Store.nc_user_id n <> Some uid ->
          Store.insert_connections uid db n new_id now
          = inr (Store.RlsViolation "connections")).
Proof.
  intros uid db. split.
  - intros ps c Hin. unfold Store.select_connections, Store.visible in Hin.
    rewrite !filter_In in Hin. destruct Hin as [[Hin Hvis] _].
    split; [exact Hin|]. cbn in Hvis. rewrite orb_false_r in Hvis.
    apply orb_true_iff in Hvis. rewrite !String.eqb_eq in Hvis.
    destruct Hvis as [->| ->]; auto.
  - intros n new_id now Hn. unfold Store.insert_connections. cbn.
    destruct (Store.nc_user_id n) as [a|]; cbn; [|reflexivity].
    destruct (String.eqb_spec uid a) as [->|Hne]; [congruence|reflexivity].
Qed.

(** X4: the INSERT policy of [chats]: a row whose [sender_id] is not the
    caller is refused; a message cannot be sent under another identity. *)
Theorem insert_chats_only_as_oneself :
  forall (uid : uuid) (db : Store.Db) (n : Store.NewChat) (new_id : uuid)
         (now : timestamptz),
    Store.nm_sender_id n <> Some uid ->
    Store.insert_chats uid db n new_id now
    = inr (Store.RlsViolation "chats").
Proof.
  intros uid db n new_id now Hn. unfold Store.insert_chats. cbn.
  destruct (Store.nm_sender_id n) as [a|]; cbn; [|reflexivity].
  destruct (String.eqb_spec uid a) as [->|Hne]; [congruence|reflexivity].
Qed.

Lemma insert_chats_only_as_oneself_witness :
  Store.insert_chats Example.carol Example.db0
    {| Store.nm_sender_id := Some Example.alice;
       Store.nm_receiver_id := Some Example.bob;
       Store.nm_message := Some "hi" |} Example.id1 7
  = inr (Store.RlsViolation "chats").
Proof.
  apply insert_chats_only_as_oneself. discriminate.
Defined.

Lemma connections_read_by_parties_insert_by_source_witness :
  Store.select_connections Example.bob Example.db_edges []
  = [Connection.mk Example.id1 Example.alice Example.bob 5]
  /\ Store.insert_connections Example.carol Example.db0
       {| Store.nc_user_id := Some Example.alice;
          Store.nc_connected_user_id := Some Example.bob |} Example.id1 7
     = inr (Store.RlsViolation "connections").
Proof.
  split; [reflexivity|].
  apply (proj2 (connections_read_by_parties_insert_by_source Example.carol
                  Example.db0)).
  discriminate.
Defined.

(** An accepted INSERT into [chats]: all three values were given, the
    sender is the caller, the id is new, both ends have a profile, and the
    table grows by the one row, unread and stamped [now]. *)
Lemma insert_chats_accepted (uid : uuid) (db db' : Store.Db)
      (n : Store.NewChat) (new_id : uuid) (now : timestamptz) :
  Store.insert_chats uid db n new_id now = inl db' ->
  exists r m,
    Store.nm_sender_id n = Some uid /\ Store.nm_receiver_id n = Some r
    /\ Store.nm_message n = Some m
    /\ existsb (fun c => String.eqb (Chat.id c) new_id) (Store.chats db)
       = false
    /\ Store.has_profile db uid = true /\ Store.has_profile db r = true
    /\ db' = Store.set_chats db
               (Store.chats db ++ [Chat.mk new_id uid r m now false]).
Proof.
  unfold Store.insert_chats. cbn.
  destruct (Store.nm_sender_id n) as [s|]; cbn; [|discriminate].
  rewrite orb_false_r.
  destruct (String.eqb_spec uid s) as [<-|Hne]; cbn; [|discriminate].
  destruct (Store.nm_receiver_id n) as [r|]; cbn; [|discriminate].
  destruct (Store.nm_message n) as [m|]; cbn; [|discriminate].
  destruct (existsb _ (Store.chats db)) eqn:Hid; cbn; [discriminate|].
  destruct (Store.has_profile db uid) eqn:Hs; cbn; [|discriminate].
  destruct (Store.has_profile db r) eqn:Hr; cbn; [|discriminate].
  intros [= <-]. exists r, m. repeat split; trivial.
Qed.

(** X5: a message that the store accepts from [uid] for another user [r]
    is stored once, at the end of [chats], under the sender [uid]; from
    then on [fetchChats] returns it to [uid] and to [r], and the result of
    a call by anyone else does not contain it. *)
Theorem insert_chats_then_fetchChats :
  forall (uid r : uuid) (db db' : Store.Db) (n : Store.NewChat)
         (new_id : uuid) (now : timestamptz),
    Store.insert_chats uid db n new_id now = inl db' ->
    Store.nm_receiver_id n = Some r ->
    uid <> r ->
    exists m,
      Store.nm_message n = Some m
      /\ Store.chats db'
         = (Store.chats db ++ [Chat.mk new_id uid r m now false])%list
      /\ (forall tie,
            In (Chat.mk new_id uid r m now false)
               (useChatStore.fetchChats_data tie uid db' uid r))
      /\ (forall tie,
            In (Chat.mk new_id uid r m now false)
               (useChatStore.fetchChats_data tie r db' r uid))
      /\ (forall tie c a b, c <> uid -> c <> r ->
            ~ In (Chat.mk new_id uid r m now false)
                 (useChatStore.fetchChats_data tie c db' a b)).
Proof.
  intros uid r db db' n new_id now Hins Hr Hne.
  apply insert_chats_accepted in Hins.
  destruct Hins as (r' & m & _ & Hr' & Hm & _ & _ & _ & ->).
  rewrite Hr in Hr'. injection Hr' as <-.
  exists m. split; [exact Hm|]. split; [reflexivity|].
  assert (Hrow : In (Chat.mk new_id uid r m now false)
                    (filter (Spec.between uid r)
                       (Store.chats db
                          ++ [Chat.mk new_id uid r m now false]))).
  { apply filter_In. split; [apply in_or_app; right; now left|].
    unfold Spec.between. cbn. now rewrite !String.eqb_refl. }
  split; [|split].
  - intros tie.
    rewrite (fetchChats_rows tie uid _ uid r Hne (or_introl eq_refl)).
    apply in_order_by. exact Hrow.
  - intros tie.
    rewrite (fetchChats_rows tie r _ r uid (not_eq_sym Hne)
               (or_introl eq_refl)).
    apply in_order_by. rewrite (filter_ext _ _ (between_sym r uid)).
    exact Hrow.
  - intros tie c a b Hc1 Hc2. unfold useChatStore.fetchChats_data.
    rewrite in_order_by. unfold Store.select_chats, Store.visible.
    rewrite !filter_In. intros [[_ Hvis] _]. cbn in Hvis.
    apply String.eqb_neq in Hc1, Hc2. now rewrite Hc1, Hc2 in Hvis.
Qed.

Lemma insert_chats_then_fetchChats_witness :
  Store.insert_chats Example.alice Example.db0
    {| Store.nm_sender_id := Some Example.alice;
       Store.nm_receiver_id := Some Example.bob;
       Store.nm_message := Some "hi" |} Example.id1 1000000
  = inl (Store.set_chats Example.db0 [Example.M1])
  /\ exists m,
      Some "hi" = Some m
      /\ In (Chat.mk Example.id1 Example.alice Example.bob m 1000000 false)
            (useChatStore.fetchChats_data (Store.scan_order Chat.t)
               Example.bob (Store.set_chats Example.db0 [Example.M1])
               Example.bob Example.alice).
Proof.
  assert (Hins : Store.insert_chats Example.alice Example.db0
            {| Store.nm_sender_id := Some Example.alice;
               Store.nm_receiver_id := Some Example.bob;
               Store.nm_message := Some "hi" |} Example.id1 1000000
          = inl (Store.set_chats Example.db0 [Example.M1]))
    by reflexivity.
  split; [exact Hins|].
  destruct (insert_chats_then_fetchChats Example.alice Example.bob
              Example.db0 _ _ Example.id1 1000000 Hins eq_refl
              ltac:(discriminate))
    as (m & Hm & _ & _ & Hbob & _).
  exists m. split; [exact Hm | exact (Hbob (Store.scan_order Chat.t))].
Defined.

(** ** The declared constraints are kept *)

Lemma NoDup_map_snoc {A B : Type} (f : A -> B) (l : list A) (x : A) :
  NoDup (map f l) -> ~ In (f x) (map f l) -> NoDup (map f (l ++ [x])).
Proof.
  intros Hnd Hx. rewrite map_app. cbn.
  eapply Permutation_NoDup; [apply Permutation_cons_append|].
  now constructor.
Qed.

Lemma existsb_eqb_false {A : Type} (f : A -> string) (v : string)
      (l : list A) :
  existsb (fun c => String.eqb (f c) v) l = false -> ~ In v (map f l).
Proof.
  intros H Hin. apply in_map_iff in Hin. destruct Hin as (c & Hc & Hin).
  assert (Ht : existsb (fun c => String.eqb (f c) v) l = true).
  { apply existsb_exists. exists c. split; [exact Hin|].
    now apply String.eqb_eq. }
  congruence.
Qed.

Lemma insert_connections_accepted (uid : uuid) (db db' : Store.Db)
      (n : Store.NewConnection) (new_id : uuid) (now : timestamptz) :
  Store.insert_connections uid db n new_id now = inl db' ->
  exists b,
    Store.nc_user_id n = Some uid /\ Store.nc_connected_user_id n = Some b
    /\ existsb (fun c => String.eqb (Connection.id c) new_id)
               (Store.connections db) = false
    /\ Store.has_edge db uid b = false
    /\ Store.has_profile db uid = true /\ Store.has_profile db b = true
    /\ db' = Store.set_connections db
               (Store.connections db ++ [Connection.mk new_id uid b now]).
Proof.
  unfold Store.insert_connections. cbn.
  destruct (Store.nc_user_id n) as [a|]; cbn; [|discriminate].
  rewrite orb_false_r.
  destruct (String.eqb_spec uid a) as [<-|Hne]; cbn; [|discriminate].
  destruct (Store.nc_connected_user_id n) as [b|]; cbn; [|discriminate].
  destruct (existsb _ (Store.connections db)) eqn:Hid; cbn; [discriminate|].
  destruct (Store.has_edge db uid b) eqn:He; cbn; [discriminate|].
  destruct (Store.has_profile db uid) eqn:Ha; cbn; [|discriminate].
  destruct (Store.has_profile db b) eqn:Hb; cbn; [|discriminate].
  intros [= <-]. exists b. repeat split; trivial.
Qed.

Lemma insert_connections_keeps_constraints (uid : uuid) (db db' : Store.Db)
      (n : Store.NewConnection) (new_id : uuid) (now : timestamptz) :
  Store.constraints_hold db ->
  Store.insert_connections uid db n new_id now = inl db' ->
  Store.constraints_hold db'.
Proof.
  intros (Hpin & Hpid & Hpa & Hedge & Hcid & Hcp & Hmid & Hmp) Hins.
  pose proof (insert_connections_keeps_edges_unique _ _ _ _ _ _ Hedge Hins)
    as Hedge'.
  apply insert_connections_accepted in Hins.
  destruct Hins as (b & _ & _ & Hid & _ & Ha & Hb & ->).
  split; [exact Hpin|]. split; [exact Hpid|]. split; [exact Hpa|].
  split; [exact Hedge'|]. split; [|split; [|split; [exact Hmid|exact Hmp]]].
  - unfold Store.connection_ids_unique. cbn.
    apply NoDup_map_snoc; [exact Hcid|].
    exact (existsb_eqb_false Connection.id new_id _ Hid).
  - intros c Hc. cbn in Hc. apply in_app_or in Hc.
    destruct Hc as [Hc|[<-|[]]]; [exact (Hcp c Hc)|].
    split; [exact Ha | exact Hb].
Qed.

(** X6: [handleAddContact] keeps every constraint that the schema
    declares: whatever PIN is typed and whatever the store answers, PINs
    and profile ids stay unique, no edge is stored twice, row ids stay
    unique, and every edge joins two existing profiles. *)
Theorem handleAddContact_keeps_constraints :
  forall (user : Profile.t) (db : Store.Db) (st : ChatPage.State)
         (new_id : uuid) (now : timestamptz),
    Store.constraints_hold db ->
    Store.constraints_hold
      (fst (ChatPage.handleAddContact user db st new_id now)).
Proof.
  intros user db st new_id now H. unfold ChatPage.handleAddContact.
  destruct (Store.single _) as [profile|e]; [|exact H].
  destruct (String.eqb (Profile.id profile) (Profile.id user)); [exact H|].
  destruct (Store.insert_connections _ db _ new_id now) as [db'|e] eqn:Hins;
    [|exact H].
  exact (insert_connections_keeps_constraints _ _ _ _ _ _ H Hins).
Qed.

Lemma db0_constraints_hold : Store.constraints_hold Example.db0.
Proof.
  unfold Store.constraints_hold, Store.pins_unique, Store.profile_ids_unique,
    Store.profiles_reference_accounts, Store.edges_unique,
    Store.connection_ids_unique, Store.connections_reference_profiles,
    Store.chat_ids_unique, Store.chats_reference_profiles.
  split; [repeat constructor; simpl; intuition discriminate|].
  split; [repeat constructor; simpl; intuition discriminate|].
  split; [intros p [<-|[<-|[<-|[]]]]; reflexivity|].
  split; [constructor|]. split; [constructor|].
  split; [intros c []|]. split; [constructor|]. intros m [].
Defined.

Lemma handleAddContact_keeps_constraints_witness :
  Store.constraints_hold Example.db0
  /\ Store.connections
       (fst (ChatPage.handleAddContact Example.alice_profile Example.db0
               (Example.typing "222222") Example.id1 5))
     = [Connection.mk Example.id1 Example.alice Example.bob 5]
  /\ Store.constraints_hold
       (fst (ChatPage.handleAddContact Example.alice_profile Example.db0
               (Example.typing "222222") Example.id1 5)).
Proof.
  split; [exact db0_constraints_hold|]. split; [reflexivity|].
  exact (handleAddContact_keeps_constraints Example.alice_profile Example.db0
           (Example.typing "222222") Example.id1 5 db0_constraints_hold).
Defined.

(** X7: every INSERT into [chats] that the store accepts keeps all the
    declared constraints: the new row has a new id and its sender and
    receiver are existing profiles. *)
Theorem insert_chats_keeps_constraints :
  forall (uid : uuid) (db db' : Store.Db) (n : Store.NewChat)
         (new_id : uuid) (now : timestamptz),
    Store.constraints_hold db ->
    Store.insert_chats uid db n new_id now = inl db' ->
    Store.constraints_hold db'.
Proof.
  intros uid db db' n new_id now
    (Hpin & Hpid & Hpa & Hedge & Hcid & Hcp & Hmid & Hmp) Hins.
  apply insert_chats_accepted in Hins.
  destruct Hins as (r & m & _ & _ & _ & Hid & Hs & Hr & ->).
  split; [exact Hpin|]. split; [exact Hpid|]. split; [exact Hpa|].
  split; [exact Hedge|]. split; [exact Hcid|]. split; [exact Hcp|].
  split.
  - unfold Store.chat_ids_unique. cbn.
    apply NoDup_map_snoc; [exact Hmid|].
    exact (existsb_eqb_false Chat.id new_id _ Hid).
  - intros c Hc. cbn in Hc. apply in_app_or in Hc.
    destruct Hc as [Hc|[<-|[]]]; [exact (Hmp c Hc)|].
    split; [exact Hs | exact Hr].
Qed.

Lemma insert_chats_keeps_constraints_witness :
  Store.constraints_hold Example.db0
  /\ Store.constraints_hold (Store.set_chats Example.db0 [Example.M1]).
Proof.
  split; [exact db0_constraints_hold|].
  exact (insert_chats_keeps_constraints Example.alice Example.db0
           (Store.set_chats Example.db0 [Example.M1])
           {| Store.nm_sender_id := Some Example.alice;
              Store.nm_receiver_id := Some Example.bob;
              Store.nm_message := Some "hi" |} Example.id1 1000000
           db0_constraints_hold eq_refl).
Defined.

Lemma has_account_add_account (db : Store.Db) (u x : uuid) :
  Store.has_account db x = true ->
  Store.has_account (Store.add_account db u) x = true.
Proof.
  unfold Store.has_account. cbn. intros ->. apply orb_true_r.
Qed.

Lemma add_account_keeps_constraints (db : Store.Db) (u : uuid) :
  Store.constraints_hold db ->
  Store.constraints_hold (Store.add_account db u).
Proof.
  intros (Hpin & Hpid & Hpa & Hedge & Hcid & Hcp & Hmid & Hmp).
  split; [exact Hpin|]. split; [exact Hpid|].
  split; [|split; [exact Hedge|split; [exact Hcid|split; [exact Hcp|
    split; [exact Hmid|exact Hmp]]]]].
  intros p Hp. apply has_account_add_account. exact (Hpa p Hp).
Qed.

Lemma has_profile_snoc (db : Store.Db) (row : Profile.t) (x : uuid) :
  Store.has_profile db x = true ->
  Store.has_profile
    (Store.set_profiles db (Store.profiles db ++ [row])) x = true.
Proof.
  unfold Store.has_profile. cbn. rewrite existsb_app. now intros ->.
Qed.

Lemma insert_profiles_keeps_constraints
      (ps : Store.Policies Profile.t Store.NewProfile)
      (caller : option uuid) (db db2 : Store.Db)
      (n : Store.NewProfile) (now : timestamptz) (row : Profile.t) :
  Store.constraints_hold db ->
  Store.insert_profiles_under ps caller db n now = inl (db2, row) ->
  Store.constraints_hold db2.
Proof.
  intros (Hpin & Hpid & Hpa & Hedge & Hcid & Hcp & Hmid & Hmp) Hins.
  pose proof (insert_profiles_keeps_pins_unique _ _ _ _ _ _ _ Hpin Hins)
    as Hpin'.
  apply insert_profiles_accepted in Hins.
  destruct Hins as (i & pin & name & _ & _ & _ & -> & -> & Hacc & Hnew & _).
  split; [exact Hpin'|]. split; [|split].
  - unfold Store.profile_ids_unique. cbn.
    apply NoDup_map_snoc; [exact Hpid|].
    exact (existsb_eqb_false Profile.id i _ Hnew).
  - intros p Hp. cbn in Hp. apply in_app_or in Hp.
    destruct Hp as [Hp|[<-|[]]]; [exact (Hpa p Hp) | exact Hacc].
  - split; [exact Hedge|]. split; [exact Hcid|]. split; [|split].
    + intros c Hc. destruct (Hcp c Hc) as [Ha Hb].
      split; now apply has_profile_snoc.
    + exact Hmid.
    + intros m Hm. destruct (Hmp m Hm) as [Ha Hb].
      split; now apply has_profile_snoc.
Qed.

(** X8: [signUp] keeps every constraint that the schema declares, whatever
    the identity provider answers, whatever PIN is drawn and whether or not
    the profile row is accepted. *)
Theorem signUp_keeps_constraints :
  forall (db : Store.Db) (st : useAuthStore.State)
         (response : useAuthStore.SignUpResponse) (displayName : string)
         (fuel : nat) (RANDOM : nat -> Sql.double) (now : timestamptz),
    Store.constraints_hold db ->
    Store.constraints_hold
      (fst (fst (useAuthStore.signUp db st response displayName fuel RANDOM
                   now))).
Proof.
  intros db st response displayName fuel RANDOM now H.
  unfold useAuthStore.signUp, useAuthStore.signUp_under.
  destruct response as [msg|[user_id|] session]; [exact H| |exact H].
  cbn zeta.
  pose proof (add_account_keeps_constraints db user_id H) as H1.
  destruct (useAuthStore.generatePin_under _ _ _ fuel RANDOM) as [pin|e|];
    [|exact H1|exact H1].
  destruct (Store.insert_profiles_under _ _ _ _ now)
    as [[db2 row]|e] eqn:Hins; [|exact H1].
  exact (insert_profiles_keeps_constraints _ _ _ _ _ _ _ H1 Hins).
Qed.

Lemma signUp_keeps_constraints_witness :
  Store.constraints_hold Example.db0
  /\ Store.auth_users
       (fst (fst (useAuthStore.signUp Example.db0 useAuthStore.initial
                    (useAuthStore.authData (Some Example.erin) true) "Erin" 5
                    Example.RANDOM_two_collisions 9)))
     = Example.erin :: Store.auth_users Example.db0
  /\ Store.constraints_hold
       (fst (fst (useAuthStore.signUp Example.db0 useAuthStore.initial
                    (useAuthStore.authData (Some Example.erin) true) "Erin" 5
                    Example.RANDOM_two_collisions 9))).
Proof.
  split; [exact db0_constraints_hold|]. split; [reflexivity|].
  exact (signUp_keeps_constraints Example.db0 useAuthStore.initial
           (useAuthStore.authData (Some Example.erin) true) "Erin" 5
           Example.RANDOM_two_collisions 9 db0_constraints_hold).
Defined.

(** ** The contact list *)











(** ** Sending from the page, and the message list *)

(** X11: [handleSendMessage] changes nothing, whatever is typed and whoever
    is selected: a blank text or no selected contact sends no request, and
    otherwise [sendMessage] throws, the error is caught and only logged;
    the store is as before and the input is never cleared. *)
Theorem handleSendMessage_changes_nothing :
  forall (trim : string -> string) (user : Profile.t) (db : Store.Db)
         (message : string) (currentChat : option Profile.t)
         (new_id : uuid) (now : timestamptz),
    ChatPage.handleSendMessage trim user db message currentChat new_id now
    = (db, message).
Proof.
  intros trim user db message currentChat new_id now.
  unfold ChatPage.handleSendMessage.
  destruct currentChat as [contact|]; [|reflexivity].
  destruct (String.eqb (trim message) ""); [reflexivity|].
  unfold useChatStore.sendMessage.
  now rewrite insert_chats_without_sender.
Qed.

(** X12: after the effect on [currentChat] has run for a user and a
    selected contact other than the user, every message of the list is
    either the user's own ([isOwn]), addressed to the contact, or a message
    from the contact to the user. *)
Theorem currentChat_effect_own_or_from_contact :
  forall (tie : Store.TieOrder Chat.t) (u contact : Profile.t)
         (db : Store.Db) (st : useChatStore.State) (m : Chat.t),
    useChatStore.currentChat st = Some contact ->
    Profile.id u <> Profile.id contact ->
    In m (useChatStore.chats
            (ChatPage.currentChat_effect tie (Some u) db st)) ->
    (ChatPage.isOwn (Some u) m = true
     /\ Chat.receiver_id m = Profile.id contact)
    \/ (ChatPage.isOwn (Some u) m = false
        /\ Chat.sender_id m = Profile.id contact
        /\ Chat.receiver_id m = Profile.id u).
Proof.
  intros tie u contact db st m Hcur Hne Hin.
  unfold ChatPage.currentChat_effect in Hin. rewrite Hcur in Hin.
  cbn in Hin.
  rewrite (fetchChats_rows tie _ db _ _ Hne (or_introl eq_refl)) in Hin.
  apply in_order_by in Hin. apply filter_In in Hin.
  destruct Hin as [_ Hb]. unfold Spec.between in Hb.
  apply orb_true_iff in Hb. rewrite !andb_true_iff, !String.eqb_eq in Hb.
  unfold ChatPage.isOwn.
  destruct Hb as [[Hs Hr]|[Hs Hr]].
  - left. split; [now apply String.eqb_eq | exact Hr].
  - right. split; [|split; assumption].
    apply String.eqb_neq. congruence.
Qed.

Lemma currentChat_effect_own_or_from_contact_witness :
  In Example.M2
     (useChatStore.chats
        (ChatPage.currentChat_effect (Store.scan_order Chat.t)
           (Some Example.alice_profile) Example.db_chats
           (useChatStore.setCurrentChat useChatStore.initial
              (Some Example.bob_profile))))
  /\ ChatPage.isOwn (Some Example.alice_profile) Example.M2 = false
  /\ ((ChatPage.isOwn (Some Example.alice_profile) Example.M2 = true
       /\ Chat.receiver_id Example.M2 = Profile.id Example.bob_profile)
      \/ (ChatPage.isOwn (Some Example.alice_profile) Example.M2 = false
          /\ Chat.sender_id Example.M2 = Profile.id Example.bob_profile
          /\ Chat.receiver_id Example.M2 = Profile.id Example.alice_profile)).
Proof.
  assert (Hin : In Example.M2
     (useChatStore.chats
        (ChatPage.currentChat_effect (Store.scan_order Chat.t)
           (Some Example.alice_profile) Example.db_chats
           (useChatStore.setCurrentChat useChatStore.initial
              (Some Example.bob_profile)))))
    by (right; right; now left).
  split; [exact Hin|]. split; [reflexivity|].
  exact (currentChat_effect_own_or_from_contact (Store.scan_order Chat.t)
           Example.alice_profile Example.bob_profile Example.db_chats
           (useChatStore.setCurrentChat useChatStore.initial
              (Some Example.bob_profile))
           Example.M2 eq_refl ltac:(discriminate) Hin).
Defined.

(** ** The session: [fetchProfile] and the routes of [App] *)

Lemma filter_key_none {A : Type} (f : A -> string) (v : string)
      (l : list A) :
  (forall p, In p l -> f p <> v) ->
  filter (fun p => String.eqb (f p) v) l = [].
Proof.
  induction l as [|q t IH]; intros H; [reflexivity|].
  cbn. destruct (String.eqb_spec (f q) v) as [E|E].
  - exfalso. apply (H q); [now left | exact E].
  - apply IH. intros p Hp. apply H. now right.
Qed.

Lemma filter_key_unique {A : Type} (f : A -> string) (p : A) (l : list A) :
  NoDup (map f l) -> In p l ->
  filter (fun q => String.eqb (f q) (f p)) l = [p].
Proof.
  induction l as [|q t IH]; intros Hnd Hin; [contradiction|].
  cbn in Hnd. inversion Hnd as [|x xs Hnotin Hnd']; subst.
  cbn. destruct Hin as [->|Hin].
  - rewrite String.eqb_refl. f_equal. apply filter_key_none.
    intros r Hr E. apply Hnotin. rewrite <- E. now apply in_map.
  - destruct (String.eqb_spec (f q) (f p)) as [E|E].
    + exfalso. apply Hnotin. rewrite E. now apply in_map.
    + now apply IH.
Qed.

Lemma select_profiles_by (uid : uuid) (db : Store.Db)
      (col : Profile.t -> string) (v : string) :
  Store.select_profiles uid db [Store.p_eq col v]
  = filter (fun p => String.eqb (col p) v) (Store.profiles db).
Proof.
  unfold Store.select_profiles. rewrite visible_profiles.
  apply filter_ext. intros p. cbn. now rewrite andb_true_r.
Qed.

(** X13: [fetchProfile] always ends the loading state.  With a session it
    puts into the store the profile row whose [id] is the session's user,
    and [null] when the user has no profile row; without a session it puts
    [null]. *)
Theorem fetchProfile_finds_own_profile :
  forall (db : Store.Db) (st : useAuthStore.State) (u : uuid),
    Store.profile_ids_unique db ->
    useAuthStore.loading (useAuthStore.fetchProfile db st (Some u)) = false
    /\ (forall p, In p (Store.profiles db) -> Profile.id p = u ->
          useAuthStore.user (useAuthStore.fetchProfile db st (Some u))
          = Some p)
    /\ ((forall p, In p (Store.profiles db) -> Profile.id p <> u) ->
        useAuthStore.user (useAuthStore.fetchProfile db st (Some u)) = None)
    /\ useAuthStore.fetchProfile db st None
       = {| useAuthStore.user := None; useAuthStore.loading := false |}.
Proof.
  intros db st u Hpid. split; [reflexivity|].
  unfold useAuthStore.fetchProfile. cbn [useAuthStore.user].
  rewrite select_profiles_by. split; [|split; [|reflexivity]].
  - intros p Hin <-.
    now rewrite (filter_key_unique Profile.id p _ Hpid Hin).
  - intros Hnone. now rewrite filter_key_none.
Qed.

Lemma fetchProfile_finds_own_profile_witness :
  Store.profile_ids_unique Example.db0
  /\ useAuthStore.user
       (useAuthStore.fetchProfile Example.db0 useAuthStore.initial
          (Some Example.alice))
     = Some Example.alice_profile
  /\ useAuthStore.user
       (useAuthStore.fetchProfile Example.db0 useAuthStore.initial
          (Some Example.erin))
     = None.
Proof.
  pose proof (proj1 (proj2 db0_constraints_hold)) as Hpid.
  split; [exact Hpid|]. split.
  - exact (proj1 (proj2 (fetchProfile_finds_own_profile Example.db0
                           useAuthStore.initial Example.alice Hpid))
                 Example.alice_profile (or_introl eq_refl) eq_refl).
  - apply (proj1 (proj2 (proj2 (fetchProfile_finds_own_profile Example.db0
                           useAuthStore.initial Example.erin Hpid)))).
    intros p [<-|[<-|[<-|[]]]]; discriminate.
Defined.

(** X14: on every route, [App] shows the spinner while loading; once
    loaded it ends, after at most one redirect, on the chat page when the
    store has a user and on the auth page when it has none.  No route
    redirects twice, and the chat page is never shown without a user. *)
Theorem App_settles_after_one_redirect :
  forall (st : useAuthStore.State) (path : App.Route),
    App.settle 1 st path
    = if useAuthStore.loading st then App.Spinner
      else match useAuthStore.user st with
           | Some _ => App.ChatElement
           | None => App.AuthElement
           end.
Proof.
  intros st path. unfold App.settle, App.App.
  destruct (useAuthStore.loading st); [reflexivity|].
  destruct path, (useAuthStore.user st); reflexivity.
Qed.

(** ** Outcomes of [handleAddContact], and the text of a PIN *)

(** X15: a call of [handleAddContact] has one of two outcomes.  Either it
    appends exactly one edge, from the user to somebody else, closes the
    dialog and clears the typed PIN, leaving the error text as it was; or
    it leaves the store untouched and changes nothing on the page but the
    error text, set to one of its three messages.  It never stores an edge
    from the user to itself. *)
Theorem handleAddContact_outcomes :
  forall (user : Profile.t) (db : Store.Db) (st : ChatPage.State)
         (new_id : uuid) (now : timestamptz),
    let r := ChatPage.handleAddContact user db st new_id now in
    (exists c,
        Store.connections (fst r) = (Store.connections db ++ [c])%list
        /\ Connection.user_id c = Profile.id user
        /\ Connection.connected_user_id c <> Profile.id user
        /\ ChatPage.showAddContact (snd r) = false
        /\ ChatPage.pinToAdd (snd r) = ""
        /\ ChatPage.error (snd r) = ChatPage.error st)
    \/ (fst r = db
        /\ exists e,
            In e ["User not found with this PIN"; "You cannot add yourself";
                  "Failed to add contact"]
            /\ snd r = ChatPage.setError st e).
Proof.
  intros user db st new_id now. cbn zeta. unfold ChatPage.handleAddContact.
  destruct (Store.single _) as [profile|e].
  - destruct (String.eqb_spec (Profile.id profile) (Profile.id user))
      as [E|E].
    + right. split; [reflexivity|]. eexists. split; [|reflexivity].
      right. now left.
    + destruct (Store.insert_connections _ db _ new_id now) as [db'|e]
        eqn:Hins.
      * left. apply insert_connections_accepted in Hins.
        destruct Hins as (b & _ & Hb & _ & _ & _ & _ & ->).
        cbn in Hb. injection Hb as <-.
        eexists. cbn. split; [reflexivity|]. repeat split. exact E.
      * right. split; [reflexivity|]. eexists. split; [|reflexivity].
        right. right. now left.
  - right. split; [reflexivity|]. eexists. split; [|reflexivity]. now left.
Qed.

(** X16: the text of a candidate PIN stands for the number computed: two
    draws give the same PIN exactly when [FLOOR(RANDOM() * 1000000)], with
    the product rounded to double precision, is the same for both, so
    padding with zeros merges no two values.  Two adjacent doubles may
    well give the same PIN. *)
Theorem new_pin_of_same_iff_same_value :
  forall (r1 r2 : Sql.double),
    Store.unit_double r1 -> Store.unit_double r2 ->
    (Store.new_pin_of r1 = Store.new_pin_of r2
     <-> Sql.FLOOR (Store.times_1000000 r1)
         = Sql.FLOOR (Store.times_1000000 r2)).
Proof.
  intros r1 r2 H1 H2. split; intros H.
  - rewrite <- (proj1 (proj2 (new_pin_of_six_digits r1 H1))).
    rewrite <- (proj1 (proj2 (new_pin_of_six_digits r2 H2))).
    now rewrite H.
  - unfold Store.new_pin_of. now rewrite H.
Qed.

Lemma new_pin_of_same_iff_same_value_witness :
  (Store.unit_double Example.r524292
   /\ Store.unit_double Example.r524292_next
   /\ Store.unit_double (Sql.mkDouble 1 (-1)))
  /\ Store.new_pin_of Example.r524292
     = Store.new_pin_of Example.r524292_next
  /\ Store.new_pin_of Example.r524292
     <> Store.new_pin_of (Sql.mkDouble 1 (-1)).
Proof.
  assert (Hu : forall m e,
             (0 <=? m) && (m <? 2 ^ 53) && (- 1074 <=? e) && (e <=? 0)
             && (m <? 2 ^ (- e)) = true ->
             Store.unit_double (Sql.mkDouble m e)).
  { intros m e H. rewrite !andb_true_iff in H.
    destruct H as ((((Ha & Hb) & Hc) & Hd) & He).
    unfold Store.unit_double. cbn [Sql.mant Sql.expo]. lia. }
  pose proof (Hu 2361201255833332 (-52) eq_refl) as U1.
  pose proof (Hu 2361201255833333 (-52) eq_refl) as U2.
  pose proof (Hu 1 (-1) eq_refl) as U3.
  split; [exact (conj U1 (conj U2 U3))|]. split.
  - apply (new_pin_of_same_iff_same_value Example.r524292
             Example.r524292_next U1 U2).
    vm_compute. reflexivity.
  - intros H.
    apply (new_pin_of_same_iff_same_value Example.r524292
             (Sql.mkDouble 1 (-1)) U1 U3) in H.
    vm_compute in H. discriminate H.
Defined.
